(** * Replica set list of the dashboard backend

    A shallow embedding of [src/app/backend/replicasetlist.go]: the in-memory
    join of replication controllers, services and pods into the list of
    replica set records shown by the dashboard, with the properties its
    specification states about it.

    The Go values are kept as the code has them: a slice is either nil or a
    list of items, a map is either nil or a finite map, [int] is a 64-bit
    signed integer whose increment wraps, a pointer is an optional value
    whose dereference panics on nil, and a [for ... range] loop is a left
    fold over the items that threads the variables the loop body assigns. *)

From Stdlib Require Import ZArith Lia.
From stdpp Require Import base option list strings gmap fin_maps.

Local Open Scope string_scope.
Local Open Scope list_scope.
Local Open Scope Z_scope.

(** ** Go values *)

Module Go.

(** A slice value: nil, or a (possibly empty) sequence of items. *)
Inductive slice (A : Type) : Type :=
| nilSlice : slice A
| sliceOf : list A → slice A.
Arguments nilSlice {A}.
Arguments sliceOf {A} _.

(** The items a [range] loop visits, in order; none for the nil slice. *)
Definition items {A} (s : slice A) : list A :=
  match s with
  | nilSlice => []
  | sliceOf l => l
  end.

(** [s == nil]. *)
Definition isNil {A} (s : slice A) : bool :=
  match s with
  | nilSlice => true
  | sliceOf _ => false
  end.

(** [make([]A, 0)]: an allocated slice with no items. *)
Definition make0 {A} : slice A := sliceOf [].

(** [append(s, x)]: the result is never nil. *)
Definition append {A} (s : slice A) (x : A) : slice A :=
  sliceOf (items s ++ [x]).

(** [append(s, l...)]: appending no item returns [s] itself. *)
Definition appendAll {A} (s : slice A) (l : list A) : slice A :=
  match l with
  | [] => s
  | _ :: _ => sliceOf (items s ++ l)
  end.

(** A [map[string]string] value: nil, or a finite map. *)
Inductive strmap : Type :=
| nilMap : strmap
| mapOf : gmap string string → strmap.

(** [len(m)]; zero for the nil map. *)
Definition len (m : strmap) : nat :=
  match m with
  | nilMap => 0%nat
  | mapOf g => size g
  end.

(** [v, ok := m[k]]: the zero value and [false] when the key is absent
    (always so for the nil map). *)
Definition index2 (m : strmap) (k : string) : string * bool :=
  match m with
  | nilMap => ("", false)
  | mapOf g =>
      match g !! k with
      | Some v => (v, true)
      | None => ("", false)
      end
  end.

(** [m[k]]: the zero value when the key is absent. *)
Definition index (m : strmap) (k : string) : string := fst (index2 m k).

(** The key/value pairs a [range] loop over the map visits.  Go leaves
    the order unspecified; the model takes the order of [map_to_list] and
    the loops over it are shown not to depend on that choice. *)
Definition entries (m : strmap) : list (string * string) :=
  match m with
  | nilMap => []
  | mapOf g => map_to_list g
  end.

(** What the map holds at a key, if anything: the reading of [index2] the
    statements below use. *)
Definition lookup (m : strmap) (k : string) : option string :=
  match m with
  | nilMap => None
  | mapOf g => g !! k
  end.

(** [int] on the 64-bit targets the backend is built for. *)
Definition intBits : Z := 64.
Definition maxInt : Z := 2 ^ (intBits - 1) - 1.
Definition minInt : Z := - 2 ^ (intBits - 1).

Definition wrapInt (z : Z) : Z :=
  (z + 2 ^ (intBits - 1)) mod 2 ^ intBits - 2 ^ (intBits - 1).

(** [x++] on an [int]. *)
Definition incr (x : Z) : Z := wrapInt (x + 1).

(** The outcome of running code that can panic. *)
Inductive outcome (A : Type) : Type :=
| Returns : A → outcome A
| Panics : outcome A.
Arguments Returns {A} _.
Arguments Panics {A}.

Definition andThen {A B} (o : outcome A) (k : A → outcome B) : outcome B :=
  match o with
  | Returns a => k a
  | Panics => Panics
  end.

(** Dereferencing a pointer: a nil pointer panics. *)
Definition deref {A} (p : option A) : outcome A :=
  match p with
  | Some a => Returns a
  | None => Panics
  end.

(** A [range] loop whose body can panic: the loop stops at the first
    panic, and what earlier rounds assigned is lost with it. *)
Fixpoint rangeLoop {S A} (body : S → A → outcome S) (s : S) (l : list A)
  : outcome S :=
  match l with
  | [] => Returns s
  | x :: rest => andThen (body s x) (λ s', rangeLoop body s' rest)
  end.

End Go.

Notation "x ←! o ; k" := (Go.andThen o (λ x, k))
  (at level 20, o at level 100, k at level 200, only parsing).

(** ** The Kubernetes API objects the code reads

    The types of [k8s.io/kubernetes/pkg/api] with the fields the backend
    touches.  Embedded structs are kept as fields of their own, so
    [service.Name] of the source is [service.ObjectMeta.Name] here. *)

Module ObjectMeta.
Record t : Type := mk {
  Name : string;
  Namespace : string;
  CreationTimestamp : Z;
  Labels : Go.strmap;
  Annotations : Go.strmap;
}.
End ObjectMeta.

Module Container.
Record t : Type := mk { Image : string }.
End Container.

Module PodSpec.
Record t : Type := mk { Containers : Go.slice Container.t }.
End PodSpec.

Module PodTemplateSpec.
Record t : Type := mk { Spec : PodSpec.t }.
End PodTemplateSpec.

Module ReplicationControllerSpec.
Record t : Type := mk {
  Replicas : Z;
  Selector : Go.strmap;
  (** [Template *PodTemplateSpec]: a pointer, nil when absent. *)
  Template : option PodTemplateSpec.t;
}.
End ReplicationControllerSpec.

Module ReplicationControllerStatus.
Record t : Type := mk { Replicas : Z }.
End ReplicationControllerStatus.

Module ReplicationController.
Record t : Type := mk {
  ObjectMeta : ObjectMeta.t;
  Spec : ReplicationControllerSpec.t;
  Status : ReplicationControllerStatus.t;
}.
End ReplicationController.

Module ServicePort.
Record t : Type := mk { Protocol : string; Port : Z }.
End ServicePort.

Module ServiceSpec.
Record t : Type := mk {
  Ports : Go.slice ServicePort.t;
  Selector : Go.strmap;
}.
End ServiceSpec.

Module LoadBalancerIngress.
Record t : Type := mk { IP : string; Hostname : string }.
End LoadBalancerIngress.

Module LoadBalancerStatus.
Record t : Type := mk { Ingress : Go.slice LoadBalancerIngress.t }.
End LoadBalancerStatus.

Module ServiceStatus.
Record t : Type := mk { LoadBalancer : LoadBalancerStatus.t }.
End ServiceStatus.

Module Service.
Record t : Type := mk {
  ObjectMeta : ObjectMeta.t;
  Spec : ServiceSpec.t;
  Status : ServiceStatus.t;
}.
End Service.

(** [api.PodPhase] is a string type; these are its declared constants. *)
Module PodPhase.
Definition t : Type := string.
Definition PodPending : t := "Pending".
Definition PodRunning : t := "Running".
Definition PodSucceeded : t := "Succeeded".
Definition PodFailed : t := "Failed".
Definition PodUnknown : t := "Unknown".
End PodPhase.

Module PodStatus.
Record t : Type := mk { Phase : PodPhase.t }.
End PodStatus.

Module Pod.
Record t : Type := mk {
  ObjectMeta : ObjectMeta.t;
  Status : PodStatus.t;
}.
End Pod.

(** ** Parts of the backend that live outside [replicasetlist.go] *)

(** Modelled from the spec: the [Endpoint] type and the helpers
    [getInternalEndpoint] and [getExternalEndpoint] are declared in another
    file of the backend.  The spec gives an internal endpoint as
    [{name: service.name, namespace: service.namespace, ports: service.ports}]
    and an external endpoint as [{address: ingressEntry, ports: service.ports}]. *)
Inductive Endpoint : Type :=
| InternalEndpoint (name namespace : string) (ports : Go.slice ServicePort.t)
| ExternalEndpoint (address : LoadBalancerIngress.t)
                   (ports : Go.slice ServicePort.t).

(** Modelled from the spec: see [Endpoint]. *)
Definition getInternalEndpoint (serviceName namespace : string)
    (ports : Go.slice ServicePort.t) : Endpoint :=
  InternalEndpoint serviceName namespace ports.

(** Modelled from the spec: see [Endpoint]. *)
Definition getExternalEndpoint (ingress : LoadBalancerIngress.t)
    (ports : Go.slice ServicePort.t) : Endpoint :=
  ExternalEndpoint ingress ports.

(** Modelled from the spec: the "well-known annotation key" the description
    is read from is a constant of another file; no property below depends
    on its value. *)
Definition DescriptionAnnotationKey : string := "description".

(** ** The model objects of [replicasetlist.go] *)

(** [type ReplicaSetPodInfo struct] *)
Record ReplicaSetPodInfo : Type := mkReplicaSetPodInfo {
  Curret : Z;
  Desired : Z;
  Running : Z;
  Waiting : Z;
  Failed : Z;
}.

(** [type ReplicaSet struct] *)
Record ReplicaSet : Type := mkReplicaSet {
  Name : string;
  Namespace : string;
  Description : string;
  Labels : Go.strmap;
  Pods : ReplicaSetPodInfo;
  ContainerImages : Go.slice string;
  CreationTime : Z;
  InternalEndpoints : Go.slice Endpoint;
  ExternalEndpoints : Go.slice Endpoint;
}.

(** [type ReplicaSetList struct] *)
Record ReplicaSetList : Type := mkReplicaSetList {
  ReplicaSets : Go.slice ReplicaSet;
}.

(** ** [isLabelSelectorMatching] *)

(** The [for label, value := range labelSelector] loop with its early
    [return false], over the entries in the order they are visited. *)
Fixpoint rangeLabelSelector (visited : list (string * string))
    (testedObjectLabels : Go.strmap) : bool :=
  match visited with
  | [] => true
  | (label, value) :: rest =>
      let '(rsValue, ok) := Go.index2 testedObjectLabels label in
      if negb ok || negb (String.eqb rsValue value)
      then false
      else rangeLabelSelector rest testedObjectLabels
  end.

Definition isLabelSelectorMatching (labelSelector testedObjectLabels : Go.strmap)
    : bool :=
  if Nat.eqb (Go.len labelSelector) 0
  then false
  else rangeLabelSelector (Go.entries labelSelector) testedObjectLabels.

(** ** [getMatchingServices] *)

(** One round of the loop: the service is appended when it is in the
    replica set's namespace and its selector is satisfied by the replica
    set's selector. *)
Definition matchingServicesStep (replicaSet : ReplicationController.t)
    (matchingServices : Go.slice Service.t) (service : Service.t)
    : Go.slice Service.t :=
  if String.eqb service.(Service.ObjectMeta).(ObjectMeta.Namespace)
                replicaSet.(ReplicationController.ObjectMeta).(ObjectMeta.Namespace)
     && isLabelSelectorMatching
          service.(Service.Spec).(ServiceSpec.Selector)
          replicaSet.(ReplicationController.Spec).(ReplicationControllerSpec.Selector)
  then Go.append matchingServices service
  else matchingServices.

Definition getMatchingServices (services : Go.slice Service.t)
    (replicaSet : ReplicationController.t) : Go.slice Service.t :=
  foldl (matchingServicesStep replicaSet) Go.nilSlice (Go.items services).

(** ** [getReplicaSetPodInfo] *)

(** The [switch pod.Status.Phase] statement. *)
Definition countPhase (phase : PodPhase.t) (result : ReplicaSetPodInfo)
    : ReplicaSetPodInfo :=
  if String.eqb phase PodPhase.PodRunning then
    mkReplicaSetPodInfo result.(Curret) result.(Desired)
      (Go.incr result.(Running)) result.(Waiting) result.(Failed)
  else if String.eqb phase PodPhase.PodPending then
    mkReplicaSetPodInfo result.(Curret) result.(Desired)
      result.(Running) (Go.incr result.(Waiting)) result.(Failed)
  else if String.eqb phase PodPhase.PodFailed then
    mkReplicaSetPodInfo result.(Curret) result.(Desired)
      result.(Running) result.(Waiting) (Go.incr result.(Failed))
  else result.

Definition podInfoStep (replicaSet : ReplicationController.t)
    (result : ReplicaSetPodInfo) (pod : Pod.t) : ReplicaSetPodInfo :=
  if String.eqb pod.(Pod.ObjectMeta).(ObjectMeta.Namespace)
                replicaSet.(ReplicationController.ObjectMeta).(ObjectMeta.Namespace)
     && isLabelSelectorMatching
          replicaSet.(ReplicationController.Spec).(ReplicationControllerSpec.Selector)
          pod.(Pod.ObjectMeta).(ObjectMeta.Labels)
  then countPhase pod.(Pod.Status).(PodStatus.Phase) result
  else result.

Definition getReplicaSetPodInfo (replicaSet : ReplicationController.t)
    (pods : Go.slice Pod.t) : ReplicaSetPodInfo :=
  let result :=
    mkReplicaSetPodInfo
      replicaSet.(ReplicationController.Status).(ReplicationControllerStatus.Replicas)
      replicaSet.(ReplicationController.Spec).(ReplicationControllerSpec.Replicas)
      0 0 0 in
  foldl (podInfoStep replicaSet) result (Go.items pods).

(** ** [getReplicaSetList] *)

(** The loop over the containers of the pod template. *)
Definition collectImages (containers : Go.slice Container.t) : Go.slice string :=
  foldl (λ containerImages container,
           Go.append containerImages container.(Container.Image))
        Go.nilSlice (Go.items containers).

(** One round of the loop over the matching services: one internal endpoint,
    then one external endpoint for each load-balancer ingress. *)
Definition endpointsStep (endpoints : Go.slice Endpoint * Go.slice Endpoint)
    (service : Service.t) : Go.slice Endpoint * Go.slice Endpoint :=
  let '(internalEndpoints, externalEndpoints) := endpoints in
  let ports := service.(Service.Spec).(ServiceSpec.Ports) in
  (Go.append internalEndpoints
     (getInternalEndpoint service.(Service.ObjectMeta).(ObjectMeta.Name)
        service.(Service.ObjectMeta).(ObjectMeta.Namespace) ports),
   foldl (λ externalEndpoints externalIP,
            Go.append externalEndpoints (getExternalEndpoint externalIP ports))
         externalEndpoints
         (Go.items service.(Service.Status).(ServiceStatus.LoadBalancer)
                          .(LoadBalancerStatus.Ingress))).

Definition collectEndpoints (matchingServices : Go.slice Service.t)
    : Go.slice Endpoint * Go.slice Endpoint :=
  foldl endpointsStep (Go.nilSlice, Go.nilSlice) (Go.items matchingServices).

(** One round of the loop over the replica sets.  Reading the containers
    dereferences the template pointer first. *)
Definition replicaSetStep (services : Go.slice Service.t) (pods : Go.slice Pod.t)
    (replicaSetList : ReplicaSetList) (replicaSet : ReplicationController.t)
    : Go.outcome ReplicaSetList :=
  template ←! Go.deref
    replicaSet.(ReplicationController.Spec).(ReplicationControllerSpec.Template);
  let containerImages :=
    collectImages template.(PodTemplateSpec.Spec).(PodSpec.Containers) in
  let matchingServices := getMatchingServices services replicaSet in
  let '(internalEndpoints, externalEndpoints) := collectEndpoints matchingServices in
  let podInfo := getReplicaSetPodInfo replicaSet pods in
  let meta := replicaSet.(ReplicationController.ObjectMeta) in
  Go.Returns (mkReplicaSetList
    (Go.append replicaSetList.(ReplicaSets)
       {| Name := meta.(ObjectMeta.Name);
          Namespace := meta.(ObjectMeta.Namespace);
          Description := Go.index meta.(ObjectMeta.Annotations) DescriptionAnnotationKey;
          Labels := meta.(ObjectMeta.Labels);
          Pods := podInfo;
          ContainerImages := containerImages;
          CreationTime := meta.(ObjectMeta.CreationTimestamp);
          InternalEndpoints := internalEndpoints;
          ExternalEndpoints := externalEndpoints |})).

Definition getReplicaSetList (replicaSets : Go.slice ReplicationController.t)
    (services : Go.slice Service.t) (pods : Go.slice Pod.t)
    : Go.outcome ReplicaSetList :=
  Go.rangeLoop (replicaSetStep services pods)
    (mkReplicaSetList Go.make0) (Go.items replicaSets).


(** ** [GetReplicaSetList]

    The exported entry point lists the three collections through the cluster
    client and hands them to [getReplicaSetList].  The client belongs to
    [k8s.io/kubernetes/pkg/client/unversioned]; it is modelled by what the
    function sees of it: for each resource, the answer to a [List] request,
    a pointer to the list object together with an error value.  What the
    function does to the outside world is kept as the trace of its log lines
    and requests. *)

(** A Go [error] value; the nil error is [None] of [option error]. *)
Inductive error : Type :=
| errorString (msg : string).

(** [labels.Selector] and [fields.Selector], as far as a caller builds them. *)
Module labels.
Inductive Selector : Type :=
| Everything
| Nothing
| SelectorFromSet (set : Go.strmap).
End labels.

Module fields.
Inductive Selector : Type :=
| Everything
| OneTermEqualSelector (k v : string).
End fields.

Module ListOptions.
Record t : Type := mk {
  LabelSelector : labels.Selector;
  FieldSelector : fields.Selector;
}.
End ListOptions.

Module ReplicationControllerList.
Record t : Type := mk { Items : Go.slice ReplicationController.t }.
End ReplicationControllerList.

Module ServiceList.
Record t : Type := mk { Items : Go.slice Service.t }.
End ServiceList.

Module PodList.
Record t : Type := mk { Items : Go.slice Pod.t }.
End PodList.

(** [api.NamespaceAll]. *)
Definition NamespaceAll : string := "".

(** The client: the answer [(list, err)] of each resource to
    [c.Resource(namespace).List(options)]. *)
Module Client.
Record t : Type := mk {
  ReplicationControllers :
    string → ListOptions.t → option ReplicationControllerList.t * option error;
  Services : string → ListOptions.t → option ServiceList.t * option error;
  Pods : string → ListOptions.t → option PodList.t * option error;
}.
End Client.

Inductive Resource : Type :=
| ReplicationControllersResource
| ServicesResource
| PodsResource.

(** What a call does besides returning: log lines and list requests. *)
Inductive Event : Type :=
| Logged (line : string)
| Listed (resource : Resource) (namespace : string) (options : ListOptions.t).

(** The function returns the trace of its events, in order, and either
    panics or returns its pair of a list pointer and an error.  The arguments of
    the final call, [replicaSets.Items], [services.Items] and [pods.Items],
    are read only after the three requests, in that order. *)
Definition GetReplicaSetList (client : Client.t)
    : list Event * Go.outcome (option ReplicaSetList * option error) :=
  let trace := [Logged "Getting list of all replica sets in the cluster"] in
  let listEverything :=
    ListOptions.mk labels.Everything fields.Everything in
  let '(replicaSets, err) :=
    client.(Client.ReplicationControllers) NamespaceAll listEverything in
  let trace :=
    trace ++ [Listed ReplicationControllersResource NamespaceAll listEverything] in
  match err with
  | Some err => (trace, Go.Returns (None, Some err))
  | None =>
      let '(services, err) :=
        client.(Client.Services) NamespaceAll listEverything in
      let trace := trace ++ [Listed ServicesResource NamespaceAll listEverything] in
      match err with
      | Some err => (trace, Go.Returns (None, Some err))
      | None =>
          let '(pods, err) := client.(Client.Pods) NamespaceAll listEverything in
          let trace := trace ++ [Listed PodsResource NamespaceAll listEverything] in
          match err with
          | Some err => (trace, Go.Returns (None, Some err))
          | None =>
              (trace,
               replicaSets ←! Go.deref replicaSets;
               services ←! Go.deref services;
               pods ←! Go.deref pods;
               replicaSetList ←!
                 getReplicaSetList replicaSets.(ReplicationControllerList.Items)
                   services.(ServiceList.Items) pods.(PodList.Items);
               Go.Returns (Some replicaSetList, None))
          end
      end
  end.

(** ** Sample objects

    The scenario of the specification: replica set [rs1] in namespace [ns]
    with selector [{app: x}], service [svc1] with the same selector, port 80
    and one ingress address, and three pods. *)

Module Sample.

Definition labels (l : list (string * string)) : Go.strmap :=
  Go.mapOf (list_to_map l).

Definition meta (name namespace : string) (lbls : Go.strmap) : ObjectMeta.t :=
  ObjectMeta.mk name namespace 0 lbls Go.nilMap.

Definition controller (name namespace : string) (selector : Go.strmap)
    (template : option PodTemplateSpec.t) : ReplicationController.t :=
  ReplicationController.mk (meta name namespace selector)
    (ReplicationControllerSpec.mk 3 selector template)
    (ReplicationControllerStatus.mk 2).

Definition template (images : list string) : option PodTemplateSpec.t :=
  Some (PodTemplateSpec.mk (PodSpec.mk (Go.sliceOf (Container.mk <$> images)))).

Definition service (name namespace : string) (selector : Go.strmap)
    (ingress : Go.slice LoadBalancerIngress.t) : Service.t :=
  Service.mk (meta name namespace Go.nilMap)
    (ServiceSpec.mk (Go.sliceOf [ServicePort.mk "TCP" 80]) selector)
    (ServiceStatus.mk (LoadBalancerStatus.mk ingress)).

Definition pod (name namespace : string) (lbls : Go.strmap) (phase : PodPhase.t)
    : Pod.t :=
  Pod.mk (meta name namespace lbls) (PodStatus.mk phase).

Definition appX : Go.strmap := labels [("app", "x")].
Definition appXtierWeb : Go.strmap := labels [("app", "x"); ("tier", "web")].
Definition appY : Go.strmap := labels [("app", "y")].

Definition addr1 : LoadBalancerIngress.t := LoadBalancerIngress.mk "1.2.3.4" "".
Definition addr2 : LoadBalancerIngress.t := LoadBalancerIngress.mk "5.6.7.8" "".

Definition rs1 : ReplicationController.t :=
  controller "rs1" "ns" appX (template ["nginx"]).
Definition rs2 : ReplicationController.t :=
  controller "rs2" "ns" appXtierWeb (template ["nginx"; "nginx"]).
Definition rsOther : ReplicationController.t :=
  controller "rs3" "other" appX (template []).
Definition rsNoTemplate : ReplicationController.t :=
  controller "rs4" "ns" appX None.

Definition svc1 : Service.t := service "svc1" "ns" appX (Go.sliceOf [addr1]).
Definition svc2 : Service.t := service "svc2" "ns" appX (Go.sliceOf [addr2; addr1]).
Definition svcY : Service.t := service "svcY" "ns" appY Go.nilSlice.
Definition svcOther : Service.t := service "svc1" "other" appX (Go.sliceOf [addr1]).

Definition p1 : Pod.t := pod "p1" "ns" appXtierWeb PodPhase.PodRunning.
Definition p2 : Pod.t := pod "p2" "ns" appX PodPhase.PodPending.
Definition p3 : Pod.t := pod "p3" "other" appX PodPhase.PodRunning.
Definition p4 : Pod.t := pod "p4" "ns" appX PodPhase.PodSucceeded.

End Sample.

(** ** Vocabulary of the statements *)

(** A replica set is well formed when its pod template is present, as the
    API server requires of every replication controller it stores. *)
Definition hasTemplate (replicaSet : ReplicationController.t) : Prop :=
  is_Some replicaSet.(ReplicationController.Spec).(ReplicationControllerSpec.Template).

(** The service is in the replica set's namespace and its selector is
    satisfied by the replica set's selector. *)
Definition targets (replicaSet : ReplicationController.t) (service : Service.t)
    : Prop :=
  service.(Service.ObjectMeta).(ObjectMeta.Namespace)
    = replicaSet.(ReplicationController.ObjectMeta).(ObjectMeta.Namespace)
  ∧ isLabelSelectorMatching
      service.(Service.Spec).(ServiceSpec.Selector)
      replicaSet.(ReplicationController.Spec).(ReplicationControllerSpec.Selector)
    = true.

(** The pod is in the replica set's namespace and its labels satisfy the
    replica set's selector. *)
Definition selects (replicaSet : ReplicationController.t) (pod : Pod.t) : Prop :=
  pod.(Pod.ObjectMeta).(ObjectMeta.Namespace)
    = replicaSet.(ReplicationController.ObjectMeta).(ObjectMeta.Namespace)
  ∧ isLabelSelectorMatching
      replicaSet.(ReplicationController.Spec).(ReplicationControllerSpec.Selector)
      pod.(Pod.ObjectMeta).(ObjectMeta.Labels)
    = true.

#[global] Instance hasTemplate_dec replicaSet : Decision (hasTemplate replicaSet) :=
  is_Some_dec _.

Definition inPhase (phase : PodPhase.t) (pod : Pod.t) : Prop :=
  pod.(Pod.Status).(PodStatus.Phase) = phase.

#[global] Instance targets_dec replicaSet service
  : Decision (targets replicaSet service) := and_dec _ _.

#[global] Instance selects_dec replicaSet pod
  : Decision (selects replicaSet pod) := and_dec _ _.

#[global] Instance inPhase_dec phase pod : Decision (inPhase phase pod) :=
  String.string_dec pod.(Pod.Status).(PodStatus.Phase) phase.

(** The number of pods of a list in a given phase, as an [int]. *)
Definition countInPhase (phase : PodPhase.t) (pods : list Pod.t) : Z :=
  Z.of_nat (length (filter (inPhase phase) pods)).

(** The endpoints the specification derives from one service. *)
Definition internalEndpointOf (service : Service.t) : Endpoint :=
  InternalEndpoint service.(Service.ObjectMeta).(ObjectMeta.Name)
    service.(Service.ObjectMeta).(ObjectMeta.Namespace)
    service.(Service.Spec).(ServiceSpec.Ports).

Definition externalEndpointsOf (service : Service.t) : list Endpoint :=
  (λ ingressEntry,
     ExternalEndpoint ingressEntry service.(Service.Spec).(ServiceSpec.Ports))
  <$> Go.items service.(Service.Status).(ServiceStatus.LoadBalancer)
                      .(LoadBalancerStatus.Ingress).

(** [record] is the record the aggregation builds for [replicaSet] when it
    is the only replica set of the call. *)
Definition describes (services : Go.slice Service.t) (pods : Go.slice Pod.t)
    (replicaSet : ReplicationController.t) (record : ReplicaSet) : Prop :=
  getReplicaSetList (Go.sliceOf [replicaSet]) services pods
  = Go.Returns (mkReplicaSetList (Go.sliceOf [record])).

(** Two slices that hold the same items up to their order, and are nil
    together. *)
Definition sameItems {A} (s s' : Go.slice A) : Prop :=
  Go.isNil s = Go.isNil s' ∧ Go.items s ≡ₚ Go.items s'.

(** Two records that agree on every field, the endpoint lists up to the
    order of their items. *)
Definition sameUpToEndpointOrder (r r' : ReplicaSet) : Prop :=
  r.(Name) = r'.(Name) ∧ r.(Namespace) = r'.(Namespace)
  ∧ r.(Description) = r'.(Description) ∧ r.(Labels) = r'.(Labels)
  ∧ r.(Pods) = r'.(Pods) ∧ r.(ContainerImages) = r'.(ContainerImages)
  ∧ r.(CreationTime) = r'.(CreationTime)
  ∧ sameItems r.(InternalEndpoints) r'.(InternalEndpoints)
  ∧ sameItems r.(ExternalEndpoints) r'.(ExternalEndpoints).

(** ** Sample clients *)

Module SampleCluster.

Definition answers {A} (answer : option A * option error)
    : string → ListOptions.t → option A * option error :=
  λ _ _, answer.

Definition refused : error := errorString "connection refused".
Definition forbidden : error := errorString "forbidden".

Definition controllers : option ReplicationControllerList.t :=
  Some (ReplicationControllerList.mk (Go.sliceOf [Sample.rs1; Sample.rs2])).
Definition services : option ServiceList.t :=
  Some (ServiceList.mk (Go.sliceOf [Sample.svc1; Sample.svc2])).
Definition pods : option PodList.t :=
  Some (PodList.mk (Go.sliceOf [Sample.p1; Sample.p2; Sample.p3])).

(** A cluster that answers the three requests. *)
Definition healthy : Client.t :=
  Client.mk (answers (controllers, None)) (answers (services, None))
    (answers (pods, None)).

(** A cluster whose service and pod requests both fail. *)
Definition servicesDown : Client.t :=
  Client.mk (answers (controllers, None)) (answers (None, Some refused))
    (answers (None, Some forbidden)).

(** A cluster that reports no error for its pods and hands out no list. *)
Definition brokenPods : Client.t :=
  Client.mk (answers (controllers, None)) (answers (services, None))
    (answers (None, None)).

(** A cluster that lists a replica set without its pod template. *)
Definition malformed : Client.t :=
  Client.mk
    (answers (Some (ReplicationControllerList.mk
                      (Go.sliceOf [Sample.rs1; Sample.rsNoTemplate])), None))
    (answers (services, None)) (answers (pods, None)).

Definition appXtierWebEnvProd : Go.strmap :=
  Sample.labels [("app", "x"); ("tier", "web"); ("env", "prod")].

Definition rsEmptySelector : ReplicationController.t :=
  Sample.controller "rs5" "ns" (Go.mapOf ∅) (Sample.template ["nginx"]).
Definition rsNilSelector : ReplicationController.t :=
  Sample.controller "rs6" "ns" Go.nilMap (Sample.template ["nginx"]).

End SampleCluster.

(** ** Vocabulary of the statements on the entry point *)

(** The list requests of a complete call, in the order they are made. *)
Definition requestOrder : list Event :=
  [Listed ReplicationControllersResource NamespaceAll
     (ListOptions.mk labels.Everything fields.Everything);
   Listed ServicesResource NamespaceAll
     (ListOptions.mk labels.Everything fields.Everything);
   Listed PodsResource NamespaceAll
     (ListOptions.mk labels.Everything fields.Everything)].

(** The error values the cluster answers to the requests of [requestOrder]. *)
Definition errorsInOrder (client : Client.t) : list (option error) :=
  [snd (client.(Client.ReplicationControllers) NamespaceAll
          (ListOptions.mk labels.Everything fields.Everything));
   snd (client.(Client.Services) NamespaceAll
          (ListOptions.mk labels.Everything fields.Everything));
   snd (client.(Client.Pods) NamespaceAll
          (ListOptions.mk labels.Everything fields.Everything))].

(** The client keeps its contract on the requests of [requestOrder]: an
    answer without an error carries a list object. *)
Definition honoursContract (client : Client.t) : Prop :=
  (∀ listed err,
     client.(Client.ReplicationControllers) NamespaceAll
       (ListOptions.mk labels.Everything fields.Everything) = (listed, err) →
     err = None → is_Some listed)
  ∧ (∀ listed err,
       client.(Client.Services) NamespaceAll
         (ListOptions.mk labels.Everything fields.Everything) = (listed, err) →
       err = None → is_Some listed)
  ∧ (∀ listed err,
       client.(Client.Pods) NamespaceAll
         (ListOptions.mk labels.Everything fields.Everything) = (listed, err) →
       err = None → is_Some listed).

(** The replica sets the cluster lists, none when the request has no list
    object. *)
Definition listedReplicaSets (client : Client.t)
    : list ReplicationController.t :=
  match fst (client.(Client.ReplicationControllers) NamespaceAll
               (ListOptions.mk labels.Everything fields.Everything)) with
  | Some listed => Go.items listed.(ReplicationControllerList.Items)
  | None => []
  end.

(** A list request for every namespace that filters nothing. *)
Definition listsEverything (event : Event) : Prop :=
  match event with
  | Logged _ => True
  | Listed _ namespace options =>
      namespace = NamespaceAll
      ∧ options.(ListOptions.LabelSelector) = labels.Everything
      ∧ options.(ListOptions.FieldSelector) = fields.Everything
  end.

(** Settles the tests [decide (inPhase _ pod)] of the goal from what is known
    of the pod's phase. *)
Ltac settle_phase :=
  unfold PodPhase.PodRunning, PodPhase.PodPending, PodPhase.PodFailed in *;
  repeat match goal with
  | |- context [decide (inPhase ?phase ?pod)] =>
      first
        [ rewrite (decide_True (P := inPhase phase pod))
            by (unfold inPhase, PodPhase.t in *; first [assumption | congruence])
        | rewrite (decide_False (P := inPhase phase pod))
            by (unfold inPhase, PodPhase.t in *; first [assumption | congruence]) ]
  end.

(** Exposes the three answers of the client in a goal about the entry
    point. *)
Ltac open_client client :=
  unfold GetReplicaSetList, errorsInOrder, honoursContract, listedReplicaSets,
    requestOrder in *;
  destruct (Client.ReplicationControllers client NamespaceAll
              (ListOptions.mk labels.Everything fields.Everything))
    as [replicaSets errReplicaSets];
  destruct (Client.Services client NamespaceAll
              (ListOptions.mk labels.Everything fields.Everything))
    as [services errServices];
  destruct (Client.Pods client NamespaceAll
              (ListOptions.mk labels.Everything fields.Everything))
    as [pods errPods];
  simpl in *.

(** Settles that the events of an explicit trace are all different. *)
Ltac distinct_events :=
  repeat (apply NoDup_cons; split;
          [ rewrite ?elem_of_cons, ?elem_of_nil;
            let H := fresh in
            intros H; repeat (destruct H as [H|H]); discriminate H || exact H
          | ]);
  apply NoDup_nil_2.

Import Sample.
Import SampleCluster.

(** ** Go values: slices and maps *)

Section GoValues.
Context {A B : Type}.

Lemma items_append (s : Go.slice A) (x : A) :
  Go.items (Go.append s x) = Go.items s ++ [x].
Proof. reflexivity. Qed.

(** A loop that appends [f x] for the items that pass a test leaves the
    images of the passing items, in order, behind what was there. *)
Lemma items_foldl_append (P : B → Prop) `{∀ x, Decision (P x)} (f : B → A)
    (step : Go.slice A → B → Go.slice A) (l : list B) (s : Go.slice A) :
  (∀ acc x, step acc x = if decide (P x) then Go.append acc (f x) else acc) →
  Go.items (foldl step s l) = Go.items s ++ (f <$> filter P l).
Proof.
  intros Hstep. revert s. induction l as [|x l IH]; intros s; simpl.
  - by rewrite app_nil_r.
  - rewrite IH, Hstep, filter_cons. destruct (decide (P x)); simpl; [|done].
    by rewrite <- app_assoc.
Qed.

(** Such a loop leaves a nil slice nil exactly when no item passes. *)
Lemma isNil_foldl_append (P : B → Prop) `{∀ x, Decision (P x)} (f : B → A)
    (step : Go.slice A → B → Go.slice A) (l : list B) (s : Go.slice A) :
  (∀ acc x, step acc x = if decide (P x) then Go.append acc (f x) else acc) →
  Go.isNil (foldl step s l) = Go.isNil s && bool_decide (Forall (λ x, ¬ P x) l).
Proof.
  intros Hstep. revert s. induction l as [|x l IH]; intros s; simpl.
  - by rewrite andb_true_r.
  - rewrite IH, Hstep. destruct (decide (P x)) as [HP|HP]; simpl.
    + symmetry. apply andb_false_intro2, bool_decide_eq_false.
      by intros [? _]%Forall_cons.
    + f_equal. apply bool_decide_ext. rewrite Forall_cons. tauto.
Qed.

Lemma appendAll_append (s : Go.slice A) (x : A) (l : list A) :
  Go.appendAll (Go.append s x) l = Go.appendAll s (x :: l).
Proof. destruct l; simpl; [done|]. by rewrite <- app_assoc. Qed.

(** Appending the images of all the items of a list, one at a time. *)
Lemma foldl_append_all (f : B → A) (l : list B) (s : Go.slice A) :
  foldl (λ acc x, Go.append acc (f x)) s l = Go.appendAll s (f <$> l).
Proof.
  revert s. induction l as [|x l IH]; intros s; [done|].
  rewrite fmap_cons. simpl foldl. rewrite IH. apply appendAll_append.
Qed.

Lemma appendAll_appendAll (s : Go.slice A) (l k : list A) :
  Go.appendAll (Go.appendAll s l) k = Go.appendAll s (l ++ k).
Proof.
  destruct l as [|x l]; simpl; [done|]. destruct k as [|y k]; simpl.
  - by rewrite app_nil_r.
  - by rewrite <- app_assoc.
Qed.

Lemma items_appendAll (s : Go.slice A) (l : list A) :
  Go.items (Go.appendAll s l) = Go.items s ++ l.
Proof. destruct l; simpl; [by rewrite app_nil_r | done]. Qed.

Lemma isNil_appendAll (s : Go.slice A) (l : list A) :
  Go.isNil (Go.appendAll s l) = Go.isNil s && bool_decide (length l = 0%nat).
Proof. destruct l; simpl; [by rewrite andb_true_r | by rewrite andb_false_r]. Qed.

(** A slice is determined by being nil or not and by its items. *)
Lemma slice_eq (s s' : Go.slice A) :
  Go.isNil s = Go.isNil s' → Go.items s = Go.items s' → s = s'.
Proof. destruct s, s'; simpl; congruence. Qed.
End GoValues.

Lemma index2_lookup (m : Go.strmap) (k : string) :
  Go.index2 m k = match Go.lookup m k with
                  | Some v => (v, true)
                  | None => ("", false)
                  end.
Proof. by destruct m. Qed.

Lemma lookup_entries (m : Go.strmap) (k v : string) :
  (k, v) ∈ Go.entries m ↔ Go.lookup m k = Some v.
Proof.
  destruct m as [|g]; simpl.
  - split; [by intros ?%elem_of_nil | done].
  - apply elem_of_map_to_list.
Qed.

Lemma len_zero_entries (m : Go.strmap) : Go.len m = 0%nat ↔ Go.entries m = [].
Proof.
  destruct m as [|g]; simpl; [done|].
  rewrite map_size_empty_iff. split.
  - intros ->. apply map_to_list_empty.
  - apply map_to_list_empty_iff.
Qed.

(** ** The selector matcher *)

Lemma rangeLabelSelector_true (visited : list (string * string)) (L : Go.strmap) :
  rangeLabelSelector visited L = true
  ↔ ∀ k v, (k, v) ∈ visited → Go.lookup L k = Some v.
Proof.
  induction visited as [|[label value] rest IH]; simpl.
  - split; [intros _ k v Hin; by apply elem_of_nil in Hin | done].
  - rewrite index2_lookup. destruct (Go.lookup L label) as [rsValue|] eqn:Hl; simpl.
    + destruct (String.eqb_spec rsValue value) as [->|Hne]; simpl.
      * rewrite IH. split.
        -- intros Hall k v [Heq|Hin]%elem_of_cons; [by simplify_eq | by apply Hall].
        -- intros Hall k v Hin. apply Hall. by right.
      * split; [done|]. intros Hall.
        specialize (Hall label value (list_elem_of_here _ _)). congruence.
    + split; [done|]. intros Hall.
      specialize (Hall label value (list_elem_of_here _ _)). congruence.
Qed.

(** The order in which the [range] loop visits the selector's entries does
    not matter. *)
Lemma rangeLabelSelector_order (visited visited' : list (string * string))
    (L : Go.strmap) :
  visited ≡ₚ visited' →
  rangeLabelSelector visited L = rangeLabelSelector visited' L.
Proof.
  intros Hperm. apply eq_true_iff_eq. rewrite !rangeLabelSelector_true.
  by setoid_rewrite Hperm.
Qed.

Lemma isLabelSelectorMatching_true (S L : Go.strmap) :
  isLabelSelectorMatching S L = true
  ↔ Go.len S ≠ 0%nat ∧ ∀ k v, Go.lookup S k = Some v → Go.lookup L k = Some v.
Proof.
  unfold isLabelSelectorMatching.
  destruct (Nat.eqb_spec (Go.len S) 0) as [Hz|Hnz].
  - split; [done | by intros [? _]].
  - rewrite rangeLabelSelector_true. setoid_rewrite lookup_entries. tauto.
Qed.

(** C1: for a non-empty selector [S] and any labels [L], the matcher
    answers true exactly when every key of [S] is in [L] with the same
    value; labels [L'] that differ from [L] only outside the keys of [S]
    (extra keys, in particular) get the same answer. *)
Theorem isLabelSelectorMatching_containment (S L : Go.strmap) :
  Go.len S ≠ 0%nat →
  (isLabelSelectorMatching S L = true
   ↔ ∀ k v, Go.lookup S k = Some v → Go.lookup L k = Some v)
  ∧ (∀ L', (∀ k, is_Some (Go.lookup S k) → Go.lookup L' k = Go.lookup L k) →
           isLabelSelectorMatching S L' = isLabelSelectorMatching S L)
  ∧ (∀ g k v, L = Go.mapOf g → Go.lookup S k = None →
              isLabelSelectorMatching S (Go.mapOf (<[k:=v]> g))
              = isLabelSelectorMatching S L).
Proof.
  intros Hlen.
  assert (Hagree : ∀ L', (∀ k, is_Some (Go.lookup S k) →
                               Go.lookup L' k = Go.lookup L k) →
            isLabelSelectorMatching S L' = isLabelSelectorMatching S L).
  { intros L' Hsame. apply eq_true_iff_eq. rewrite !isLabelSelectorMatching_true.
    split; intros [_ Hall]; (split; [done|]); intros k v Hk.
    - rewrite <- Hsame by eauto. by apply Hall.
    - rewrite Hsame by eauto. by apply Hall. }
  split; [|split; [done|]].
  - rewrite isLabelSelectorMatching_true. tauto.
  - intros g k v -> Hnone. apply Hagree. intros k' [v' Hk']; simpl.
    apply lookup_insert_ne. congruence.
Qed.

Lemma isLabelSelectorMatching_containment_witness :
  Go.len appX ≠ 0%nat
  ∧ (isLabelSelectorMatching appX appXtierWeb = true
     ↔ ∀ k v, Go.lookup appX k = Some v → Go.lookup appXtierWeb k = Some v).
Proof.
  split; [vm_compute; lia|].
  apply (isLabelSelectorMatching_containment appX appXtierWeb).
  vm_compute; lia.
Defined.

(** C2: an empty selector, nil or allocated, matches no labels at all. *)
Theorem isLabelSelectorMatching_empty_selector (S L : Go.strmap) :
  Go.len S = 0%nat → isLabelSelectorMatching S L = false.
Proof. intros Hlen. unfold isLabelSelectorMatching. by rewrite Hlen. Qed.

Lemma isLabelSelectorMatching_empty_selector_witness :
  Go.len Go.nilMap = 0%nat
  ∧ Go.len (Go.mapOf ∅) = 0%nat
  ∧ isLabelSelectorMatching Go.nilMap appX = false
  ∧ isLabelSelectorMatching (Go.mapOf ∅) appX = false.
Proof.
  split; [reflexivity|]. split; [reflexivity|]. split.
  - apply (isLabelSelectorMatching_empty_selector Go.nilMap appX). reflexivity.
  - apply (isLabelSelectorMatching_empty_selector (Go.mapOf ∅) appX). reflexivity.
Defined.

(** An empty selector is either the nil map or the map without entries. *)
Lemma len_zero_inv (S : Go.strmap) :
  Go.len S = 0%nat ↔ S = Go.nilMap ∨ S = Go.mapOf ∅.
Proof.
  destruct S as [|g]; simpl; [split; [by left | done]|].
  rewrite map_size_empty_iff. split.
  - intros ->. by right.
  - by intros [?|[= ->]].
Qed.

(** ** Service matching *)

Lemma matchingServicesStep_decide replicaSet matchingServices service :
  matchingServicesStep replicaSet matchingServices service
  = if decide (targets replicaSet service)
    then Go.append matchingServices service
    else matchingServices.
Proof.
  unfold matchingServicesStep.
  destruct (decide (targets replicaSet service)) as [[Hns Hsel]|Hno].
  - by rewrite Hsel, (proj2 (String.eqb_eq _ _) Hns).
  - destruct (String.eqb_spec
                service.(Service.ObjectMeta).(ObjectMeta.Namespace)
                replicaSet.(ReplicationController.ObjectMeta).(ObjectMeta.Namespace))
      as [Hns|Hns]; [|done].
    destruct (isLabelSelectorMatching _ _) eqn:Hsel; [|done].
    by destruct Hno.
Qed.

(** The matching services are the services that target the replica set, in
    the order of the input. *)
Lemma getMatchingServices_items services replicaSet :
  Go.items (getMatchingServices services replicaSet)
  = filter (targets replicaSet) (Go.items services).
Proof.
  unfold getMatchingServices.
  rewrite (items_foldl_append (targets replicaSet) id); simpl.
  - by rewrite list_fmap_id.
  - intros. apply matchingServicesStep_decide.
Qed.

(** The result is the nil slice exactly when no service matches. *)
Lemma getMatchingServices_isNil services replicaSet :
  Go.isNil (getMatchingServices services replicaSet) = true
  ↔ Forall (λ service, ¬ targets replicaSet service) (Go.items services).
Proof.
  unfold getMatchingServices.
  rewrite (isNil_foldl_append (targets replicaSet) id); simpl.
  - apply bool_decide_eq_true.
  - intros. apply matchingServicesStep_decide.
Qed.

(** C6, as the code has it: the matching services come in the order of the
    input, each input service that targets the replica set once for each of
    its occurrences; the result is the nil slice exactly when no service
    matches, and an allocated slice otherwise. *)
Theorem getMatchingServices_stable_filter services replicaSet :
  Go.items (getMatchingServices services replicaSet)
  = filter (targets replicaSet) (Go.items services)
  ∧ (Forall (λ service, ¬ targets replicaSet service) (Go.items services)
     ↔ getMatchingServices services replicaSet = Go.nilSlice).
Proof.
  split; [apply getMatchingServices_items|].
  rewrite <- getMatchingServices_isNil.
  by destruct (getMatchingServices services replicaSet).
Qed.

(** C6, as the specification states it, fails: the two services of this call do not
    target [rs1] (one selects another application, one is in another
    namespace), and the result is the nil slice, not an allocated empty
    list. *)
Lemma getMatchingServices_returns_nil :
  filter (targets rs1) [svcY; svcOther] = []
  ∧ Go.isNil (getMatchingServices (Go.sliceOf [svcY; svcOther]) rs1) = true
  ∧ getMatchingServices (Go.sliceOf [svcY; svcOther]) rs1 ≠ Go.make0.
Proof.
  split; [|split]; [vm_compute; reflexivity | vm_compute; reflexivity |].
  vm_compute. discriminate.
Qed.

(** ** Pod status aggregation *)

Lemma incr_no_wrap (x : Z) : 0 ≤ x < Go.maxInt → Go.incr x = x + 1.
Proof.
  unfold Go.incr, Go.wrapInt, Go.maxInt, Go.intBits. simpl Z.sub.
  intros Hx. rewrite Z.mod_small; lia.
Qed.

Lemma podInfoStep_decide replicaSet result pod :
  podInfoStep replicaSet result pod
  = if decide (selects replicaSet pod)
    then countPhase pod.(Pod.Status).(PodStatus.Phase) result
    else result.
Proof.
  unfold podInfoStep.
  destruct (decide (selects replicaSet pod)) as [[Hns Hsel]|Hno].
  - by rewrite Hsel, (proj2 (String.eqb_eq _ _) Hns).
  - destruct (String.eqb_spec
                pod.(Pod.ObjectMeta).(ObjectMeta.Namespace)
                replicaSet.(ReplicationController.ObjectMeta).(ObjectMeta.Namespace))
      as [Hns|Hns]; [|done].
    destruct (isLabelSelectorMatching _ _) eqn:Hsel; [|done].
    by destruct Hno.
Qed.

(** The three outcomes of the [switch], and the case it leaves out. *)
Lemma countPhase_cases phase result :
  (phase = PodPhase.PodRunning
   ∧ countPhase phase result
     = mkReplicaSetPodInfo result.(Curret) result.(Desired)
         (Go.incr result.(Running)) result.(Waiting) result.(Failed))
  ∨ (phase = PodPhase.PodPending
     ∧ countPhase phase result
       = mkReplicaSetPodInfo result.(Curret) result.(Desired)
           result.(Running) (Go.incr result.(Waiting)) result.(Failed))
  ∨ (phase = PodPhase.PodFailed
     ∧ countPhase phase result
       = mkReplicaSetPodInfo result.(Curret) result.(Desired)
           result.(Running) result.(Waiting) (Go.incr result.(Failed)))
  ∨ (phase ≠ PodPhase.PodRunning ∧ phase ≠ PodPhase.PodPending
     ∧ phase ≠ PodPhase.PodFailed ∧ countPhase phase result = result).
Proof.
  unfold countPhase.
  destruct (String.eqb_spec phase PodPhase.PodRunning); [by left|].
  destruct (String.eqb_spec phase PodPhase.PodPending); [by right; left|].
  destruct (String.eqb_spec phase PodPhase.PodFailed); [by right; right; left|].
  by right; right; right.
Qed.

(** The declared counts pass through the scan untouched. *)
Lemma podInfo_loop_declared replicaSet (pods : list Pod.t) result :
  (foldl (podInfoStep replicaSet) result pods).(Curret) = result.(Curret)
  ∧ (foldl (podInfoStep replicaSet) result pods).(Desired) = result.(Desired).
Proof.
  revert result. induction pods as [|pod pods IH]; intros result; simpl; [done|].
  destruct (IH (podInfoStep replicaSet result pod)) as [-> ->].
  rewrite podInfoStep_decide. destruct (decide _); [|done].
  destruct (countPhase_cases pod.(Pod.Status).(PodStatus.Phase) result)
    as [[_ ->]|[[_ ->]|[[_ ->]|(_ & _ & _ & ->)]]]; done.
Qed.

Lemma countInPhase_cons (phase : PodPhase.t) (pod : Pod.t) (pods : list Pod.t) :
  countInPhase phase (pod :: pods)
  = (if decide (inPhase phase pod) then 1 else 0) + countInPhase phase pods.
Proof.
  unfold countInPhase. rewrite filter_cons.
  destruct (decide (inPhase phase pod)); simpl length; lia.
Qed.

Lemma countInPhase_nonneg (phase : PodPhase.t) (pods : list Pod.t) :
  (0 ≤ countInPhase phase pods)%Z.
Proof. unfold countInPhase. lia. Qed.

(** While the counters cannot wrap, each grows by the number of selected
    pods in its phase. *)
Lemma podInfo_loop_counts replicaSet (pods : list Pod.t) result :
  0 ≤ result.(Running) → 0 ≤ result.(Waiting) → 0 ≤ result.(Failed) →
  result.(Running) + result.(Waiting) + result.(Failed)
    + Z.of_nat (length pods) ≤ Go.maxInt →
  (foldl (podInfoStep replicaSet) result pods).(Running)
  = result.(Running)
    + countInPhase PodPhase.PodRunning (filter (selects replicaSet) pods)
  ∧ (foldl (podInfoStep replicaSet) result pods).(Waiting)
    = result.(Waiting)
      + countInPhase PodPhase.PodPending (filter (selects replicaSet) pods)
  ∧ (foldl (podInfoStep replicaSet) result pods).(Failed)
    = result.(Failed)
      + countInPhase PodPhase.PodFailed (filter (selects replicaSet) pods).
Proof.
  revert result. induction pods as [|pod pods IH]; intros result HR HW HF Hfit.
  - unfold countInPhase. simpl. lia.
  - simpl foldl. rewrite filter_cons. simpl length in Hfit.
    rewrite podInfoStep_decide.
    destruct (decide (selects replicaSet pod)) as [Hsel|Hsel];
      [|apply IH; lia].
    rewrite !countInPhase_cons.
    destruct (countPhase_cases pod.(Pod.Status).(PodStatus.Phase) result)
      as [[Hp ->]|[[Hp ->]|[[Hp ->]|(Hp1 & Hp2 & Hp3 & ->)]]].
    + settle_phase.
      rewrite incr_no_wrap by lia.
      edestruct (IH (mkReplicaSetPodInfo result.(Curret) result.(Desired)
                       (result.(Running) + 1) result.(Waiting) result.(Failed)))
        as (-> & -> & ->); simpl; lia.
    + settle_phase.
      rewrite incr_no_wrap by lia.
      edestruct (IH (mkReplicaSetPodInfo result.(Curret) result.(Desired)
                       result.(Running) (result.(Waiting) + 1) result.(Failed)))
        as (-> & -> & ->); simpl; lia.
    + settle_phase.
      rewrite incr_no_wrap by lia.
      edestruct (IH (mkReplicaSetPodInfo result.(Curret) result.(Desired)
                       result.(Running) result.(Waiting) (result.(Failed) + 1)))
        as (-> & -> & ->); simpl; lia.
    + settle_phase.
      destruct (IH result) as (-> & -> & ->); lia.
Qed.

(** A pod is in one phase: the three counted phases never overlap. *)
Lemma countInPhase_total (pods : list Pod.t) :
  countInPhase PodPhase.PodRunning pods + countInPhase PodPhase.PodPending pods
    + countInPhase PodPhase.PodFailed pods
  ≤ Z.of_nat (length pods).
Proof.
  induction pods as [|pod pods IH]; [unfold countInPhase; simpl; lia|].
  rewrite !countInPhase_cons. simpl length.
  destruct (decide (inPhase PodPhase.PodRunning pod)) as [HR|_];
    destruct (decide (inPhase PodPhase.PodPending pod)) as [HP|_];
    destruct (decide (inPhase PodPhase.PodFailed pod)) as [HF|_];
    unfold inPhase, PodPhase.t, PodPhase.PodRunning, PodPhase.PodPending,
      PodPhase.PodFailed in *;
    try congruence; lia.
Qed.

(** A selected pod outside the three counted phases changes nothing. *)
Lemma podInfoStep_other_phase replicaSet result pod :
  ¬ inPhase PodPhase.PodRunning pod → ¬ inPhase PodPhase.PodPending pod →
  ¬ inPhase PodPhase.PodFailed pod →
  podInfoStep replicaSet result pod = result.
Proof.
  unfold inPhase. intros HR HP HF. rewrite podInfoStep_decide.
  destruct (decide _); [|done].
  destruct (countPhase_cases pod.(Pod.Status).(PodStatus.Phase) result)
    as [[? _]|[[? _]|[[? _]|(_ & _ & _ & ->)]]]; done.
Qed.

(** C3: the scan counts exactly the pods in the replica set's namespace
    whose labels satisfy its selector, by phase: running pods in [Running],
    pending pods in [Waiting], failed pods in [Failed].  A selected pod in
    any other phase changes no counter, so the three add up to at most the
    number of selected pods.  (A slice holds at most [maxInt] items, which
    keeps the counters from wrapping.) *)
Theorem getReplicaSetPodInfo_counts replicaSet (pods : Go.slice Pod.t) :
  Z.of_nat (length (Go.items pods)) ≤ Go.maxInt →
  (getReplicaSetPodInfo replicaSet pods).(Running)
  = countInPhase PodPhase.PodRunning (filter (selects replicaSet) (Go.items pods))
  ∧ (getReplicaSetPodInfo replicaSet pods).(Waiting)
    = countInPhase PodPhase.PodPending (filter (selects replicaSet) (Go.items pods))
  ∧ (getReplicaSetPodInfo replicaSet pods).(Failed)
    = countInPhase PodPhase.PodFailed (filter (selects replicaSet) (Go.items pods))
  ∧ (getReplicaSetPodInfo replicaSet pods).(Running)
    + (getReplicaSetPodInfo replicaSet pods).(Waiting)
    + (getReplicaSetPodInfo replicaSet pods).(Failed)
    ≤ Z.of_nat (length (filter (selects replicaSet) (Go.items pods)))
  ∧ (∀ result pod,
       selects replicaSet pod →
       ¬ inPhase PodPhase.PodRunning pod → ¬ inPhase PodPhase.PodPending pod →
       ¬ inPhase PodPhase.PodFailed pod →
       podInfoStep replicaSet result pod = result).
Proof.
  intros Hfit. unfold getReplicaSetPodInfo.
  edestruct (podInfo_loop_counts replicaSet (Go.items pods)) as (HR & HW & HF);
    [| | | | rewrite HR, HW, HF]; simpl; try lia.
  repeat split; try done.
  - apply countInPhase_total.
  - intros result pod _. apply podInfoStep_other_phase.
Qed.

Lemma getReplicaSetPodInfo_counts_witness :
  Z.of_nat (length (Go.items (Go.sliceOf [p1; p2; p3; p4]))) ≤ Go.maxInt
  ∧ (getReplicaSetPodInfo rs1 (Go.sliceOf [p1; p2; p3; p4])).(Running)
    = countInPhase PodPhase.PodRunning
        (filter (selects rs1) (Go.items (Go.sliceOf [p1; p2; p3; p4]))).
Proof.
  split; [vm_compute; discriminate|].
  apply (getReplicaSetPodInfo_counts rs1 (Go.sliceOf [p1; p2; p3; p4])).
  vm_compute; discriminate.
Defined.

(** C7: the desired count is the declared target of the replica set and the
    current count its declared current count, whatever the pods are. *)
Theorem getReplicaSetPodInfo_declared replicaSet (pods : Go.slice Pod.t) :
  (getReplicaSetPodInfo replicaSet pods).(Desired)
  = replicaSet.(ReplicationController.Spec).(ReplicationControllerSpec.Replicas)
  ∧ (getReplicaSetPodInfo replicaSet pods).(Curret)
    = replicaSet.(ReplicationController.Status).(ReplicationControllerStatus.Replicas).
Proof.
  unfold getReplicaSetPodInfo.
  by edestruct (podInfo_loop_declared replicaSet (Go.items pods)) as [-> ->].
Qed.

(** ** Namespace isolation *)

(** C4: a service of another namespace is never among the matching services
    of a replica set, and a pod of another namespace adds to none of its
    counters: with or without them the results are the same, whatever their
    labels and selectors. *)
Theorem namespace_isolation replicaSet (service : Service.t) (pod : Pod.t)
    (services services' : list Service.t) (pods pods' : list Pod.t) :
  service.(Service.ObjectMeta).(ObjectMeta.Namespace)
    ≠ replicaSet.(ReplicationController.ObjectMeta).(ObjectMeta.Namespace) →
  pod.(Pod.ObjectMeta).(ObjectMeta.Namespace)
    ≠ replicaSet.(ReplicationController.ObjectMeta).(ObjectMeta.Namespace) →
  (service ∉ Go.items
      (getMatchingServices (Go.sliceOf (services ++ service :: services')) replicaSet))
  ∧ getMatchingServices (Go.sliceOf (services ++ service :: services')) replicaSet
    = getMatchingServices (Go.sliceOf (services ++ services')) replicaSet
  ∧ getReplicaSetPodInfo replicaSet (Go.sliceOf (pods ++ pod :: pods'))
    = getReplicaSetPodInfo replicaSet (Go.sliceOf (pods ++ pods')).
Proof.
  intros Hservice Hpod. split; [|split].
  - rewrite getMatchingServices_items, list_elem_of_filter.
    by intros [[Hns _] _].
  - unfold getMatchingServices. simpl Go.items. rewrite !foldl_app. simpl foldl.
    rewrite (matchingServicesStep_decide replicaSet _ service).
    rewrite decide_False; [done|]. by intros [Hns _].
  - unfold getReplicaSetPodInfo. simpl Go.items. rewrite !foldl_app. simpl foldl.
    rewrite (podInfoStep_decide replicaSet _ pod).
    rewrite decide_False; [done|]. by intros [Hns _].
Qed.

Lemma namespace_isolation_witness :
  svcOther.(Service.ObjectMeta).(ObjectMeta.Namespace)
    ≠ rs1.(ReplicationController.ObjectMeta).(ObjectMeta.Namespace)
  ∧ p3.(Pod.ObjectMeta).(ObjectMeta.Namespace)
    ≠ rs1.(ReplicationController.ObjectMeta).(ObjectMeta.Namespace)
  ∧ getMatchingServices (Go.sliceOf ([svc1] ++ svcOther :: [svc2])) rs1
    = getMatchingServices (Go.sliceOf ([svc1] ++ [svc2])) rs1
  ∧ getReplicaSetPodInfo rs1 (Go.sliceOf ([p1; p2] ++ p3 :: [p4]))
    = getReplicaSetPodInfo rs1 (Go.sliceOf ([p1; p2] ++ [p4])).
Proof.
  split; [vm_compute; discriminate|]. split; [vm_compute; discriminate|].
  apply (namespace_isolation rs1 svcOther p3 [svc1] [svc2] [p1; p2] [p4]);
    vm_compute; discriminate.
Defined.

(** ** Endpoint derivation *)

Lemma endpoints_loop (services : list Service.t)
    (internalEndpoints externalEndpoints : Go.slice Endpoint) :
  foldl endpointsStep (internalEndpoints, externalEndpoints) services
  = (Go.appendAll internalEndpoints (internalEndpointOf <$> services),
     Go.appendAll externalEndpoints (services ≫= externalEndpointsOf)).
Proof.
  revert internalEndpoints externalEndpoints.
  induction services as [|service services IH]; intros ie ee; [done|].
  simpl foldl.
  destruct (endpointsStep (ie, ee) service) as [ie' ee'] eqn:Hstep.
  rewrite IH. unfold endpointsStep in Hstep. injection Hstep as <- <-.
  rewrite foldl_append_all, appendAll_append, appendAll_appendAll.
  reflexivity.
Qed.

(** The endpoints of a list of matching services: one internal endpoint
    for each service, and its external endpoints, in the order of the
    services and of their ingress lists. *)
Lemma collectEndpoints_spec (matchingServices : Go.slice Service.t) :
  collectEndpoints matchingServices
  = (Go.appendAll Go.nilSlice (internalEndpointOf <$> Go.items matchingServices),
     Go.appendAll Go.nilSlice (Go.items matchingServices ≫= externalEndpointsOf)).
Proof. apply endpoints_loop. Qed.

(** ** The assembled list *)

(** One round of the loop either panics on a missing template or appends
    the record that describes the replica set. *)
Lemma replicaSetStep_cases services pods replicaSet :
  (¬ hasTemplate replicaSet
   ∧ ∀ replicaSetList,
       replicaSetStep services pods replicaSetList replicaSet = Go.Panics)
  ∨ (hasTemplate replicaSet
     ∧ ∃ record,
         describes services pods replicaSet record
         ∧ ∀ replicaSetList,
             replicaSetStep services pods replicaSetList replicaSet
             = Go.Returns (mkReplicaSetList
                             (Go.append replicaSetList.(ReplicaSets) record))).
Proof.
  unfold hasTemplate, describes, getReplicaSetList, replicaSetStep. simpl.
  destruct (ReplicationControllerSpec.Template _) as [template|]; simpl.
  - right. split; [by eexists|].
    destruct (collectEndpoints _) as [internalEndpoints externalEndpoints].
    eexists. split; [reflexivity|]. intros replicaSetList. reflexivity.
  - left. split; [by intros [? ?]|done].
Qed.

Lemma describes_hasTemplate services pods replicaSet record :
  describes services pods replicaSet record → hasTemplate replicaSet.
Proof.
  intros Hdesc.
  destruct (replicaSetStep_cases services pods replicaSet)
    as [[_ Hpanic]|[Htemplate _]]; [|done].
  unfold describes, getReplicaSetList in Hdesc. simpl in Hdesc.
  by rewrite Hpanic in Hdesc.
Qed.

Lemma describes_functional services pods replicaSet record record' :
  describes services pods replicaSet record →
  describes services pods replicaSet record' → record = record'.
Proof. unfold describes. intros -> [= ->]. done. Qed.

(** What the record of a replica set holds. *)
Lemma describes_fields services pods replicaSet record :
  describes services pods replicaSet record →
  record.(Name) = replicaSet.(ReplicationController.ObjectMeta).(ObjectMeta.Name)
  ∧ record.(Namespace)
    = replicaSet.(ReplicationController.ObjectMeta).(ObjectMeta.Namespace)
  ∧ record.(Description)
    = Go.index replicaSet.(ReplicationController.ObjectMeta).(ObjectMeta.Annotations)
        DescriptionAnnotationKey
  ∧ record.(Labels) = replicaSet.(ReplicationController.ObjectMeta).(ObjectMeta.Labels)
  ∧ record.(CreationTime)
    = replicaSet.(ReplicationController.ObjectMeta).(ObjectMeta.CreationTimestamp)
  ∧ record.(Pods) = getReplicaSetPodInfo replicaSet pods
  ∧ (∃ template,
       replicaSet.(ReplicationController.Spec).(ReplicationControllerSpec.Template)
       = Some template
       ∧ record.(ContainerImages)
         = Go.appendAll Go.nilSlice
             (Container.Image
                <$> Go.items template.(PodTemplateSpec.Spec).(PodSpec.Containers)))
  ∧ record.(InternalEndpoints)
    = Go.appendAll Go.nilSlice
        (internalEndpointOf <$> Go.items (getMatchingServices services replicaSet))
  ∧ record.(ExternalEndpoints)
    = Go.appendAll Go.nilSlice
        (Go.items (getMatchingServices services replicaSet) ≫= externalEndpointsOf).
Proof.
  unfold describes, getReplicaSetList, replicaSetStep. simpl.
  destruct (ReplicationControllerSpec.Template _) as [template|]; simpl; [|done].
  rewrite collectEndpoints_spec. intros [= <-]. simpl.
  repeat split. exists template. split; [done|].
  unfold collectImages. apply foldl_append_all.
Qed.

(** The loop over the replica sets returns exactly when every replica set
    has its template, with one record for each, in their order. *)
Lemma getReplicaSetList_loop services pods (replicaSets : list ReplicationController.t)
    (before : list ReplicaSet) (out : ReplicaSetList) :
  Go.rangeLoop (replicaSetStep services pods)
    (mkReplicaSetList (Go.sliceOf before)) replicaSets = Go.Returns out
  ↔ ∃ records,
      Forall2 (describes services pods) replicaSets records
      ∧ out = mkReplicaSetList (Go.sliceOf (before ++ records)).
Proof.
  revert before. induction replicaSets as [|replicaSet replicaSets IH]; intros before.
  - simpl. split.
    + intros [= <-]. exists []. by rewrite app_nil_r.
    + intros (records & ->%Forall2_nil_inv_l & ->). by rewrite app_nil_r.
  - simpl Go.rangeLoop.
    destruct (replicaSetStep_cases services pods replicaSet)
      as [[Hno Hpanic]|[_ (record & Hdesc & Hstep)]].
    + rewrite Hpanic. simpl. split; [done|].
      intros (records & (record & ? & Hdesc & _ & _)%Forall2_cons_inv_l & _).
      by apply describes_hasTemplate in Hdesc.
    + rewrite Hstep. simpl. unfold Go.append. simpl Go.items. rewrite IH. split.
      * intros (records & Hall & ->). exists (record :: records).
        split; [by constructor|]. by rewrite <- app_assoc.
      * intros (records & (record' & rest & Hdesc' & Hall & ->)%Forall2_cons_inv_l & ->).
        exists rest. split; [done|].
        rewrite (describes_functional _ _ _ _ _ Hdesc Hdesc').
        by rewrite <- app_assoc.
Qed.

Lemma getReplicaSetList_returns_iff replicaSets services pods out :
  getReplicaSetList replicaSets services pods = Go.Returns out
  ↔ ∃ records,
      Forall2 (describes services pods) (Go.items replicaSets) records
      ∧ out = mkReplicaSetList (Go.sliceOf records).
Proof. unfold getReplicaSetList, Go.make0. apply getReplicaSetList_loop. Qed.

Lemma describes_exists services pods (replicaSets : list ReplicationController.t) :
  Forall hasTemplate replicaSets →
  ∃ records, Forall2 (describes services pods) replicaSets records.
Proof.
  induction 1 as [|replicaSet replicaSets Htemplate _ [records IH]]; [by exists []|].
  destruct (replicaSetStep_cases services pods replicaSet)
    as [[Hno _]|[_ (record & Hdesc & _)]]; [done|].
  exists (record :: records). by constructor.
Qed.

(** A missing template makes the whole call panic. *)
Lemma getReplicaSetList_panics replicaSets services pods :
  ¬ Forall hasTemplate (Go.items replicaSets) →
  getReplicaSetList replicaSets services pods = Go.Panics.
Proof.
  intros Hno. destruct (getReplicaSetList _ _ _) as [out|] eqn:Hout; [|done].
  destruct Hno. apply getReplicaSetList_returns_iff in Hout as (records & Hall & _).
  clear out. induction Hall as [|?? ?? Hdesc _ IH]; constructor; [|done].
  by eapply describes_hasTemplate.
Qed.

(** C8: on well-formed input (every replica set has its pod template) the
    aggregation returns, with an allocated list that holds one record for
    each replica set; for an empty replica set collection, nil or not, and
    any services and pods, the list is allocated and empty. *)
Theorem getReplicaSetList_total replicaSets services pods :
  Forall hasTemplate (Go.items replicaSets) →
  (∃ out,
     getReplicaSetList replicaSets services pods = Go.Returns out
     ∧ Go.isNil out.(ReplicaSets) = false
     ∧ length (Go.items out.(ReplicaSets)) = length (Go.items replicaSets))
  ∧ (Go.items replicaSets = [] →
     getReplicaSetList replicaSets services pods
     = Go.Returns (mkReplicaSetList (Go.sliceOf []))).
Proof.
  intros Hwf. split.
  - destruct (describes_exists services pods _ Hwf) as [records Hall].
    exists (mkReplicaSetList (Go.sliceOf records)). split; [|split]; simpl.
    + apply getReplicaSetList_returns_iff. by exists records.
    + done.
    + symmetry. by eapply Forall2_length.
  - unfold getReplicaSetList. by intros ->.
Qed.

Lemma getReplicaSetList_total_witness :
  Forall hasTemplate (Go.items (Go.nilSlice : Go.slice ReplicationController.t))
  ∧ Forall hasTemplate (Go.items (Go.sliceOf [rs1; rs2]))
  ∧ getReplicaSetList Go.nilSlice (Go.sliceOf [svc1]) (Go.sliceOf [p1])
    = Go.Returns (mkReplicaSetList (Go.sliceOf []))
  ∧ ∃ out,
      getReplicaSetList (Go.sliceOf [rs1; rs2]) (Go.sliceOf [svc1]) (Go.sliceOf [p1])
      = Go.Returns out
      ∧ Go.isNil out.(ReplicaSets) = false
      ∧ length (Go.items out.(ReplicaSets)) = length (Go.items (Go.sliceOf [rs1; rs2])).
Proof.
  split; [apply (bool_decide_unpack _); vm_compute; exact I|].
  split; [apply (bool_decide_unpack _); vm_compute; exact I|].
  split.
  - apply (getReplicaSetList_total Go.nilSlice (Go.sliceOf [svc1]) (Go.sliceOf [p1]));
      [apply (bool_decide_unpack _); vm_compute; exact I | reflexivity].
  - apply (getReplicaSetList_total (Go.sliceOf [rs1; rs2])).
    apply (bool_decide_unpack _); vm_compute; exact I.
Defined.

(** C5: in the record of every replica set the internal endpoints are the
    internal endpoints of its matching services, one for each service with
    its name, namespace and ports, and the external endpoints are one for
    each load-balancer ingress of each matching service with the service's
    ports, none for a service without ingress; both lists follow the order
    of the matching services, the external one the order of each ingress
    list within a service. *)
Theorem getReplicaSetList_endpoints replicaSets services pods :
  Forall hasTemplate (Go.items replicaSets) →
  ∃ out,
    getReplicaSetList replicaSets services pods = Go.Returns out
    ∧ Forall2
        (λ replicaSet record,
           Go.items record.(InternalEndpoints)
           = (λ service,
                InternalEndpoint service.(Service.ObjectMeta).(ObjectMeta.Name)
                  service.(Service.ObjectMeta).(ObjectMeta.Namespace)
                  service.(Service.Spec).(ServiceSpec.Ports))
             <$> Go.items (getMatchingServices services replicaSet)
           ∧ Go.items record.(ExternalEndpoints)
             = Go.items (getMatchingServices services replicaSet)
               ≫= (λ service,
                     (λ ingressEntry,
                        ExternalEndpoint ingressEntry
                          service.(Service.Spec).(ServiceSpec.Ports))
                     <$> Go.items service.(Service.Status).(ServiceStatus.LoadBalancer)
                                         .(LoadBalancerStatus.Ingress)))
        (Go.items replicaSets) (Go.items out.(ReplicaSets)).
Proof.
  intros Hwf.
  destruct (describes_exists services pods _ Hwf) as [records Hall].
  exists (mkReplicaSetList (Go.sliceOf records)). split.
  - apply getReplicaSetList_returns_iff. by exists records.
  - simpl. eapply Forall2_impl; [exact Hall|].
    intros replicaSet record Hdesc.
    destruct (describes_fields _ _ _ _ Hdesc)
      as (_ & _ & _ & _ & _ & _ & _ & -> & ->).
    by rewrite !items_appendAll.
Qed.

Lemma getReplicaSetList_endpoints_witness :
  Forall hasTemplate (Go.items (Go.sliceOf [rs1]))
  ∧ ∃ out,
      getReplicaSetList (Go.sliceOf [rs1]) (Go.sliceOf [svc1; svcY; svc2]) (Go.sliceOf [p1])
      = Go.Returns out
      ∧ ∃ record,
          Go.items out.(ReplicaSets) = [record]
          ∧ Go.items record.(InternalEndpoints)
            = [internalEndpointOf svc1; internalEndpointOf svc2]
          ∧ Go.items record.(ExternalEndpoints)
            = [ExternalEndpoint addr1 svc1.(Service.Spec).(ServiceSpec.Ports);
               ExternalEndpoint addr2 svc2.(Service.Spec).(ServiceSpec.Ports);
               ExternalEndpoint addr1 svc2.(Service.Spec).(ServiceSpec.Ports)].
Proof.
  split; [apply (bool_decide_unpack _); vm_compute; exact I|].
  destruct (getReplicaSetList_endpoints (Go.sliceOf [rs1])
              (Go.sliceOf [svc1; svcY; svc2]) (Go.sliceOf [p1]))
    as (out & Hout & Hall); [apply (bool_decide_unpack _); vm_compute; exact I|].
  exists out. split; [exact Hout|].
  apply Forall2_cons_inv_l in Hall as (record & rest & [HI HE] & ->%Forall2_nil_inv_l & ->).
  exists record. split; [done|]. split.
  - rewrite HI. vm_compute. reflexivity.
  - rewrite HE. vm_compute. reflexivity.
Defined.

(** ** No exclusive ownership *)

(** C10: a service can be among the matching services of two different
    replica sets, and a pod can be counted for both: [svc1] and [p1] are, in
    a call on [rs1] and [rs2].  In general each record of the result is the
    record its replica set gets when it is alone in the call, so what matches
    one replica set stays available to the others. *)
Theorem no_exclusive_ownership :
  (rs1 ≠ rs2
   ∧ svc1 ∈ Go.items (getMatchingServices (Go.sliceOf [svc1]) rs1)
   ∧ svc1 ∈ Go.items (getMatchingServices (Go.sliceOf [svc1]) rs2)
   ∧ selects rs1 p1 ∧ selects rs2 p1
   ∧ ∃ record1 record2,
       getReplicaSetList (Go.sliceOf [rs1; rs2]) (Go.sliceOf [svc1]) (Go.sliceOf [p1])
       = Go.Returns (mkReplicaSetList (Go.sliceOf [record1; record2]))
       ∧ record1.(InternalEndpoints) = Go.sliceOf [internalEndpointOf svc1]
       ∧ record2.(InternalEndpoints) = Go.sliceOf [internalEndpointOf svc1]
       ∧ record1.(Pods).(Running) = 1
       ∧ record2.(Pods).(Running) = 1)
  ∧ (∀ replicaSets services pods out,
       getReplicaSetList replicaSets services pods = Go.Returns out →
       Forall2 (describes services pods) (Go.items replicaSets)
         (Go.items out.(ReplicaSets))).
Proof.
  split.
  - split; [vm_compute; discriminate|].
    assert (Hmatch1 : Go.items (getMatchingServices (Go.sliceOf [svc1]) rs1) = [svc1])
      by (vm_compute; reflexivity).
    assert (Hmatch2 : Go.items (getMatchingServices (Go.sliceOf [svc1]) rs2) = [svc1])
      by (vm_compute; reflexivity).
    rewrite Hmatch1, Hmatch2.
    split; [apply list_elem_of_here|]. split; [apply list_elem_of_here|].
    split; [by apply (bool_decide_unpack _); vm_compute|].
    split; [by apply (bool_decide_unpack _); vm_compute|].
    destruct (getReplicaSetList _ _ _) as [out|] eqn:Hout;
      vm_compute in Hout; [|discriminate Hout].
    injection Hout as <-.
    eexists _, _. split; [reflexivity|]. repeat split.
  - intros replicaSets services pods out
      (records & Hall & ->)%getReplicaSetList_returns_iff.
    exact Hall.
Qed.

(** ** Re-ordering the inputs *)

(** A loop whose rounds commute does not depend on the order of its items. *)
Lemma foldl_commuting_rounds {S A} (f : S → A → S) :
  (∀ s x y, f (f s x) y = f (f s y) x) →
  ∀ l l', l ≡ₚ l' → ∀ s, foldl f s l = foldl f s l'.
Proof.
  intros Hcomm l l' Hperm.
  induction Hperm as [|x l l' _ IH|x y l|l l' l'' _ IH _ IH']; intros s; simpl.
  - done.
  - apply IH.
  - by rewrite Hcomm.
  - by rewrite IH, IH'.
Qed.

Lemma countPhase_comm phase phase' result :
  countPhase phase (countPhase phase' result)
  = countPhase phase' (countPhase phase result).
Proof.
  unfold countPhase.
  destruct (String.eqb phase PodPhase.PodRunning),
    (String.eqb phase PodPhase.PodPending), (String.eqb phase PodPhase.PodFailed),
    (String.eqb phase' PodPhase.PodRunning),
    (String.eqb phase' PodPhase.PodPending), (String.eqb phase' PodPhase.PodFailed);
    reflexivity.
Qed.

Lemma podInfoStep_comm replicaSet result pod pod' :
  podInfoStep replicaSet (podInfoStep replicaSet result pod) pod'
  = podInfoStep replicaSet (podInfoStep replicaSet result pod') pod.
Proof.
  rewrite !podInfoStep_decide.
  destruct (decide (selects replicaSet pod)), (decide (selects replicaSet pod'));
    try done.
  apply countPhase_comm.
Qed.

(** The pod summary does not depend on the order of the pods. *)
Lemma getReplicaSetPodInfo_permutation replicaSet (pods pods' : Go.slice Pod.t) :
  Go.items pods ≡ₚ Go.items pods' →
  getReplicaSetPodInfo replicaSet pods = getReplicaSetPodInfo replicaSet pods'.
Proof.
  intros Hperm. unfold getReplicaSetPodInfo.
  apply foldl_commuting_rounds; [|done]. intros. apply podInfoStep_comm.
Qed.

Lemma getReplicaSetList_pods_permutation replicaSets services
    (pods pods' : Go.slice Pod.t) :
  Go.items pods ≡ₚ Go.items pods' →
  getReplicaSetList replicaSets services pods
  = getReplicaSetList replicaSets services pods'.
Proof.
  intros Hperm. unfold getReplicaSetList.
  generalize (mkReplicaSetList Go.make0).
  induction (Go.items replicaSets) as [|replicaSet rest IH]; intros start; [done|].
  simpl.
  assert (Hstep : replicaSetStep services pods start replicaSet
                  = replicaSetStep services pods' start replicaSet).
  { unfold replicaSetStep.
    by rewrite (getReplicaSetPodInfo_permutation replicaSet pods pods' Hperm). }
  rewrite Hstep. clear Hstep.
  destruct (replicaSetStep services pods' start replicaSet); simpl; [apply IH | done].
Qed.

Lemma sameItems_appendAll {A} (l l' : list A) :
  l ≡ₚ l' → sameItems (Go.appendAll Go.nilSlice l) (Go.appendAll Go.nilSlice l').
Proof.
  intros Hperm. split.
  - rewrite !isNil_appendAll. by rewrite (Permutation_length Hperm).
  - by rewrite !items_appendAll.
Qed.

(** Re-ordering the services and the pods leaves the record of a replica
    set as it is, up to the order of its endpoints. *)
Lemma describes_reordered services services' pods pods' replicaSet record record' :
  Go.items services ≡ₚ Go.items services' →
  Go.items pods ≡ₚ Go.items pods' →
  describes services pods replicaSet record →
  describes services' pods' replicaSet record' →
  sameUpToEndpointOrder record record'.
Proof.
  intros Hservices Hpods Hdesc Hdesc'.
  destruct (describes_fields _ _ _ _ Hdesc)
    as (HN & HNs & HD & HL & HT & HP & (template & Htemplate & HC) & HI & HE).
  destruct (describes_fields _ _ _ _ Hdesc')
    as (HN' & HNs' & HD' & HL' & HT' & HP' & (template' & Htemplate' & HC') & HI' & HE').
  assert (Hmatching : Go.items (getMatchingServices services replicaSet)
                      ≡ₚ Go.items (getMatchingServices services' replicaSet))
    by (by rewrite !getMatchingServices_items, Hservices).
  unfold sameUpToEndpointOrder.
  rewrite HN, HN', HNs, HNs', HD, HD', HL, HL', HT, HT', HP, HP', HC, HC', HI, HI',
    HE, HE'.
  repeat split; try done.
  - by apply getReplicaSetPodInfo_permutation.
  - congruence.
  - apply sameItems_appendAll. by rewrite Hmatching.
  - apply sameItems_appendAll. by rewrite Hmatching.
  - apply sameItems_appendAll. by rewrite Hmatching.
  - apply sameItems_appendAll. by rewrite Hmatching.
Qed.

Lemma describes_all_reordered services services' pods pods'
    (replicaSets : list ReplicationController.t) records records' :
  Go.items services ≡ₚ Go.items services' →
  Go.items pods ≡ₚ Go.items pods' →
  Forall2 (describes services pods) replicaSets records →
  Forall2 (describes services' pods') replicaSets records' →
  Forall2 sameUpToEndpointOrder records records'.
Proof.
  intros Hservices Hpods Hall. revert records'.
  induction Hall as [|replicaSet record rest records Hdesc _ IH]; intros records'.
  - intros ->%Forall2_nil_inv_l. constructor.
  - intros (record' & rest' & Hdesc' & Hall' & ->)%Forall2_cons_inv_l.
    constructor; [by eapply describes_reordered | by apply IH].
Qed.

Lemma describes_all_functional services pods
    (replicaSets : list ReplicationController.t) records records' :
  Forall2 (describes services pods) replicaSets records →
  Forall2 (describes services pods) replicaSets records' →
  records = records'.
Proof.
  intros Hall. revert records'.
  induction Hall as [|replicaSet record rest records Hdesc _ IH]; intros records'.
  - by intros ->%Forall2_nil_inv_l.
  - intros (record' & rest' & Hdesc' & Hall' & ->)%Forall2_cons_inv_l.
    f_equal; [by eapply describes_functional | by apply IH].
Qed.

Lemma describes_all_hasTemplate services pods
    (replicaSets : list ReplicationController.t) records :
  Forall2 (describes services pods) replicaSets records →
  Forall hasTemplate replicaSets.
Proof.
  induction 1 as [|???? Hdesc _ IH]; constructor; [|done].
  by eapply describes_hasTemplate.
Qed.

(** Re-ordering the replica sets re-orders their records with them. *)
Lemma describes_all_permutation services pods
    (replicaSets replicaSets' : list ReplicationController.t) :
  replicaSets ≡ₚ replicaSets' →
  ∀ records records',
    Forall2 (describes services pods) replicaSets records →
    Forall2 (describes services pods) replicaSets' records' →
    records ≡ₚ records'.
Proof.
  induction 1 as [|x l l' _ IH|x y l|l l' l'' Hperm IH _ IH'];
    intros records records' Hall Hall'.
  - apply Forall2_nil_inv_l in Hall as ->. by apply Forall2_nil_inv_l in Hall' as ->.
  - apply Forall2_cons_inv_l in Hall as (r & rest & Hr & Hrest & ->).
    apply Forall2_cons_inv_l in Hall' as (r' & rest' & Hr' & Hrest' & ->).
    rewrite (describes_functional _ _ _ _ _ Hr Hr'). constructor. by apply IH.
  - apply Forall2_cons_inv_l in Hall as (ry & rest1 & Hy & Hrest1 & ->).
    apply Forall2_cons_inv_l in Hrest1 as (rx & rest & Hx & Hrest & ->).
    apply Forall2_cons_inv_l in Hall' as (rx' & rest1' & Hx' & Hrest1' & ->).
    apply Forall2_cons_inv_l in Hrest1' as (ry' & rest' & Hy' & Hrest' & ->).
    rewrite (describes_functional _ _ _ _ _ Hx Hx'),
      (describes_functional _ _ _ _ _ Hy Hy'),
      (describes_all_functional _ _ _ _ _ Hrest Hrest').
    apply perm_swap.
  - assert (Hwf : Forall hasTemplate l').
    { rewrite <- Hperm. by eapply describes_all_hasTemplate. }
    destruct (describes_exists services pods _ Hwf) as [middle Hmiddle].
    etrans; [by eapply IH | by eapply IH'].
Qed.

(** C9, as the code has it: on well-formed input the aggregation returns,
    and its records follow the replica sets in their input order.
    Re-ordering the pods changes nothing.  Re-ordering the services leaves
    every field of every record as it is, except that the internal and the
    external endpoint lists, which follow the service order, are re-ordered.
    Re-ordering the replica sets re-orders the records. *)
Theorem getReplicaSetList_reordering replicaSets replicaSets' services services'
    pods pods' :
  Forall hasTemplate (Go.items replicaSets) →
  Go.items replicaSets ≡ₚ Go.items replicaSets' →
  Go.items services ≡ₚ Go.items services' →
  Go.items pods ≡ₚ Go.items pods' →
  ∃ out outServices outSets,
    getReplicaSetList replicaSets services pods = Go.Returns out
    ∧ Forall2 (describes services pods) (Go.items replicaSets)
        (Go.items out.(ReplicaSets))
    ∧ getReplicaSetList replicaSets services pods' = Go.Returns out
    ∧ getReplicaSetList replicaSets services' pods' = Go.Returns outServices
    ∧ Forall2 sameUpToEndpointOrder (Go.items out.(ReplicaSets))
        (Go.items outServices.(ReplicaSets))
    ∧ getReplicaSetList replicaSets' services pods = Go.Returns outSets
    ∧ Go.items out.(ReplicaSets) ≡ₚ Go.items outSets.(ReplicaSets).
Proof.
  intros Hwf Hsets Hservices Hpods.
  destruct (describes_exists services pods _ Hwf) as [records Hall].
  destruct (describes_exists services' pods' _ Hwf) as [recordsServices HallServices].
  assert (Hwf' : Forall hasTemplate (Go.items replicaSets')) by by rewrite <- Hsets.
  destruct (describes_exists services pods _ Hwf') as [recordsSets HallSets].
  exists (mkReplicaSetList (Go.sliceOf records)),
    (mkReplicaSetList (Go.sliceOf recordsServices)),
    (mkReplicaSetList (Go.sliceOf recordsSets)).
  assert (Hout : getReplicaSetList replicaSets services pods
                 = Go.Returns (mkReplicaSetList (Go.sliceOf records))).
  { apply getReplicaSetList_returns_iff. by exists records. }
  simpl. repeat split.
  - exact Hout.
  - exact Hall.
  - by rewrite <- (getReplicaSetList_pods_permutation _ _ pods pods' Hpods).
  - apply getReplicaSetList_returns_iff. by exists recordsServices.
  - by eapply describes_all_reordered.
  - apply getReplicaSetList_returns_iff. by exists recordsSets.
  - by eapply describes_all_permutation.
Qed.

Lemma getReplicaSetList_reordering_witness :
  Forall hasTemplate (Go.items (Go.sliceOf [rs1; rs2]))
  ∧ ∃ out outServices outSets,
      getReplicaSetList (Go.sliceOf [rs1; rs2]) (Go.sliceOf [svc1; svc2])
        (Go.sliceOf [p1; p2]) = Go.Returns out
      ∧ getReplicaSetList (Go.sliceOf [rs1; rs2]) (Go.sliceOf [svc1; svc2])
          (Go.sliceOf [p2; p1]) = Go.Returns out
      ∧ getReplicaSetList (Go.sliceOf [rs1; rs2]) (Go.sliceOf [svc2; svc1])
          (Go.sliceOf [p2; p1]) = Go.Returns outServices
      ∧ Forall2 sameUpToEndpointOrder (Go.items out.(ReplicaSets))
          (Go.items outServices.(ReplicaSets))
      ∧ getReplicaSetList (Go.sliceOf [rs2; rs1]) (Go.sliceOf [svc1; svc2])
          (Go.sliceOf [p1; p2]) = Go.Returns outSets
      ∧ Go.items out.(ReplicaSets) ≡ₚ Go.items outSets.(ReplicaSets).
Proof.
  split; [apply (bool_decide_unpack _); vm_compute; exact I|].
  destruct (getReplicaSetList_reordering
              (Go.sliceOf [rs1; rs2]) (Go.sliceOf [rs2; rs1])
              (Go.sliceOf [svc1; svc2]) (Go.sliceOf [svc2; svc1])
              (Go.sliceOf [p1; p2]) (Go.sliceOf [p2; p1]))
    as (out & outServices & outSets & H1 & _ & H2 & H3 & H4 & H5 & H6).
  - apply (bool_decide_unpack _); vm_compute; exact I.
  - simpl. apply perm_swap.
  - simpl. apply perm_swap.
  - simpl. apply perm_swap.
  - exists out, outServices, outSets. repeat split; assumption.
Defined.

(** C9, as the specification states it, fails: with the two services of [rs1] given
    in the other order, the internal endpoints of its record come in the
    other order too, so the field is not identical. *)
Lemma getReplicaSetList_service_order_shows :
  Go.items (Go.sliceOf [svc1; svc2]) ≡ₚ Go.items (Go.sliceOf [svc2; svc1])
  ∧ ∃ record record',
      getReplicaSetList (Go.sliceOf [rs1]) (Go.sliceOf [svc1; svc2]) (Go.sliceOf [p1])
      = Go.Returns (mkReplicaSetList (Go.sliceOf [record]))
      ∧ getReplicaSetList (Go.sliceOf [rs1]) (Go.sliceOf [svc2; svc1]) (Go.sliceOf [p1])
        = Go.Returns (mkReplicaSetList (Go.sliceOf [record']))
      ∧ record.(InternalEndpoints)
        = Go.sliceOf [internalEndpointOf svc1; internalEndpointOf svc2]
      ∧ record'.(InternalEndpoints)
        = Go.sliceOf [internalEndpointOf svc2; internalEndpointOf svc1]
      ∧ record.(InternalEndpoints) ≠ record'.(InternalEndpoints).
Proof.
  split; [apply perm_swap|].
  destruct (getReplicaSetList (Go.sliceOf [rs1]) (Go.sliceOf [svc1; svc2]) _)
    as [out|] eqn:Hout; vm_compute in Hout; [|discriminate Hout].
  injection Hout as <-.
  destruct (getReplicaSetList (Go.sliceOf [rs1]) (Go.sliceOf [svc2; svc1]) _)
    as [out'|] eqn:Hout'; vm_compute in Hout'; [|discriminate Hout'].
  injection Hout' as <-.
  eexists _, _. split; [reflexivity|]. split; [reflexivity|].
  split; [reflexivity|]. split; [reflexivity|]. simpl. discriminate.
Qed.

(** ** Scenarios of the specification *)

(** A replica set with an empty selector has no matching service: a service
    with an empty selector matches nothing, and no entry of a non-empty
    service selector is found in an empty map. *)
Lemma getMatchingServices_empty_selector services replicaSet :
  Go.len replicaSet.(ReplicationController.Spec).(ReplicationControllerSpec.Selector)
  = 0%nat →
  getMatchingServices services replicaSet = Go.nilSlice.
Proof.
  intros Hlen.
  assert (Hnil : Go.isNil (getMatchingServices services replicaSet) = true);
    [|by destruct (getMatchingServices services replicaSet)].
  apply getMatchingServices_isNil.
  apply Forall_forall. intros service _ [_ Hsel].
  apply isLabelSelectorMatching_true in Hsel as [Hnz Hall].
  destruct service.(Service.Spec).(ServiceSpec.Selector) as [|g]; [done|].
  simpl in Hnz. destruct (map_to_list g) as [|[k v] rest] eqn:Hentries.
  - apply map_to_list_empty_iff in Hentries as ->. by rewrite map_size_empty in Hnz.
  - assert (Hk : g !! k = Some v).
    { apply elem_of_map_to_list. rewrite Hentries. apply list_elem_of_here. }
    specialize (Hall k v Hk).
    apply len_zero_inv in Hlen as [Hnil|Hempty].
    + by rewrite Hnil in Hall.
    + rewrite Hempty in Hall. simpl in Hall. by rewrite lookup_empty in Hall.
Qed.

(** The scenario of the specification: one record for [rs1], with one
    running and one waiting pod (the pod of the other namespace is left
    out), one internal endpoint and one external endpoint. *)
Example scenario_rs1 :
  ∃ record,
    getReplicaSetList (Go.sliceOf [rs1]) (Go.sliceOf [svc1]) (Go.sliceOf [p1; p2; p3])
    = Go.Returns (mkReplicaSetList (Go.sliceOf [record]))
    ∧ record.(Name) = "rs1" ∧ record.(Namespace) = "ns"
    ∧ record.(Pods) = mkReplicaSetPodInfo 2 3 1 1 0
    ∧ record.(ContainerImages) = Go.sliceOf ["nginx"]
    ∧ record.(InternalEndpoints)
      = Go.sliceOf [InternalEndpoint "svc1" "ns" (Go.sliceOf [ServicePort.mk "TCP" 80])]
    ∧ record.(ExternalEndpoints)
      = Go.sliceOf [ExternalEndpoint addr1 (Go.sliceOf [ServicePort.mk "TCP" 80])].
Proof.
  destruct (getReplicaSetList _ _ _) as [out|] eqn:Hout;
    vm_compute in Hout; [|discriminate Hout].
  injection Hout as <-. eexists. split; [reflexivity|]. repeat split.
Qed.

(** Without services and pods the record has nil endpoint lists and zero
    counts. *)
Example scenario_no_services :
  ∃ record,
    getReplicaSetList (Go.sliceOf [rs1]) Go.nilSlice Go.nilSlice
    = Go.Returns (mkReplicaSetList (Go.sliceOf [record]))
    ∧ record.(Pods) = mkReplicaSetPodInfo 2 3 0 0 0
    ∧ record.(InternalEndpoints) = Go.nilSlice
    ∧ record.(ExternalEndpoints) = Go.nilSlice.
Proof.
  destruct (getReplicaSetList _ _ _) as [out|] eqn:Hout;
    vm_compute in Hout; [|discriminate Hout].
  injection Hout as <-. eexists. split; [reflexivity|]. repeat split.
Qed.

(** A replica set without its pod template is outside the well-formed
    inputs: the call panics and returns no list. *)
Example scenario_missing_template :
  getReplicaSetList (Go.sliceOf [rs1; rsNoTemplate]) (Go.sliceOf [svc1])
    (Go.sliceOf [p1]) = Go.Panics.
Proof. vm_compute. reflexivity. Qed.


(** ** The selector matcher as a relation *)

(** A selector that matches some labels is an allocated map with an entry. *)
Lemma isLabelSelectorMatching_mapOf (S L : Go.strmap) :
  isLabelSelectorMatching S L = true →
  ∃ g h, S = Go.mapOf g ∧ L = Go.mapOf h ∧ g ≠ ∅ ∧ g ⊆ h.
Proof.
  intros [Hlen Hall]%isLabelSelectorMatching_true.
  destruct S as [|g]; [done|]. simpl in Hlen, Hall.
  apply map_size_non_empty_iff in Hlen.
  destruct L as [|h].
  - destruct (map_choose g Hlen) as (k & v & Hk). by specialize (Hall k v Hk).
  - exists g, h. repeat split; try done. by apply map_subseteq_spec.
Qed.

(** Matching composes: when the first selector is satisfied by the second
    map and the second, as a selector, by the third, then the first is
    satisfied by the third.  A service that targets a replica set's selector
    thus selects whatever labels that selector selects. *)
Theorem isLabelSelectorMatching_trans (A B C : Go.strmap) :
  isLabelSelectorMatching A B = true →
  isLabelSelectorMatching B C = true →
  isLabelSelectorMatching A C = true.
Proof.
  intros [HlenA HAB]%isLabelSelectorMatching_true
         [HlenB HBC]%isLabelSelectorMatching_true.
  apply isLabelSelectorMatching_true. split; [done|].
  intros k v Hk. by apply HBC, HAB.
Qed.

Lemma isLabelSelectorMatching_trans_witness :
  isLabelSelectorMatching appX appXtierWeb = true
  ∧ isLabelSelectorMatching appXtierWeb appXtierWebEnvProd = true
  ∧ isLabelSelectorMatching appX appXtierWebEnvProd = true.
Proof.
  split; [vm_compute; reflexivity|]. split; [vm_compute; reflexivity|].
  apply (isLabelSelectorMatching_trans appX appXtierWeb appXtierWebEnvProd);
    vm_compute; reflexivity.
Defined.

(** Two maps that match each other both ways are the same map. *)
Theorem isLabelSelectorMatching_antisym (A B : Go.strmap) :
  isLabelSelectorMatching A B = true →
  isLabelSelectorMatching B A = true →
  A = B.
Proof.
  intros (g & h & -> & -> & _ & Hgh)%isLabelSelectorMatching_mapOf
         (h' & g' & [= <-] & [= <-] & _ & Hhg)%isLabelSelectorMatching_mapOf.
  f_equal. by apply (anti_symm (⊆)).
Qed.

Lemma isLabelSelectorMatching_antisym_witness :
  isLabelSelectorMatching appX (labels [("app", "x"); ("app", "y")]) = true
  ∧ isLabelSelectorMatching (labels [("app", "x"); ("app", "y")]) appX = true
  ∧ appX = labels [("app", "x"); ("app", "y")].
Proof.
  split; [vm_compute; reflexivity|]. split; [vm_compute; reflexivity|].
  apply (isLabelSelectorMatching_antisym appX (labels [("app", "x"); ("app", "y")]));
    vm_compute; reflexivity.
Defined.

(** A map matches itself exactly when it has an entry: the empty selector
    does not even match itself. *)
Theorem isLabelSelectorMatching_refl_iff (S : Go.strmap) :
  isLabelSelectorMatching S S = true ↔ Go.len S ≠ 0%nat.
Proof. rewrite isLabelSelectorMatching_true. split; [by intros [? _] | done]. Qed.

(** A match needs at least as many labels as the selector has entries, and
    at least one: labels without entries, nil or not, are matched by no
    selector. *)
Theorem isLabelSelectorMatching_len (S L : Go.strmap) :
  isLabelSelectorMatching S L = true →
  (0 < Go.len S ≤ Go.len L)%nat.
Proof.
  intros (g & h & -> & -> & Hne & Hgh)%isLabelSelectorMatching_mapOf. simpl.
  apply map_size_non_empty_iff in Hne.
  apply map_subseteq_size in Hgh. lia.
Qed.

Lemma isLabelSelectorMatching_len_witness :
  isLabelSelectorMatching appX appXtierWeb = true
  ∧ (0 < Go.len appX ≤ Go.len appXtierWeb)%nat.
Proof.
  split; [vm_compute; reflexivity|].
  apply (isLabelSelectorMatching_len appX appXtierWeb). vm_compute; reflexivity.
Defined.

Lemma rangeLabelSelector_order_witness :
  [("app", "x"); ("tier", "web")] ≡ₚ [("tier", "web"); ("app", "x")]
  ∧ rangeLabelSelector [("app", "x"); ("tier", "web")] appXtierWebEnvProd
    = rangeLabelSelector [("tier", "web"); ("app", "x")] appXtierWebEnvProd.
Proof.
  split; [apply perm_swap|].
  apply (rangeLabelSelector_order [("app", "x"); ("tier", "web")]
           [("tier", "web"); ("app", "x")] appXtierWebEnvProd).
  apply perm_swap.
Defined.

(** ** More on service matching *)

Lemma getMatchingServices_empty_selector_witness :
  Go.len rsEmptySelector.(ReplicationController.Spec).(ReplicationControllerSpec.Selector)
  = 0%nat
  ∧ Go.len rsNilSelector.(ReplicationController.Spec).(ReplicationControllerSpec.Selector)
    = 0%nat
  ∧ getMatchingServices (Go.sliceOf [svc1; svc2; svcY]) rsEmptySelector = Go.nilSlice
  ∧ getMatchingServices (Go.sliceOf [svc1; svc2; svcY]) rsNilSelector = Go.nilSlice.
Proof.
  split; [vm_compute; reflexivity|]. split; [vm_compute; reflexivity|]. split.
  - apply (getMatchingServices_empty_selector (Go.sliceOf [svc1; svc2; svcY])
             rsEmptySelector).
    vm_compute; reflexivity.
  - apply (getMatchingServices_empty_selector (Go.sliceOf [svc1; svc2; svcY])
             rsNilSelector).
    vm_compute; reflexivity.
Defined.

(** The two joins agree: a matching service of a replica set is in the
    namespace of every pod the replica set selects, and its selector is
    satisfied by the labels of that pod. *)
Theorem matching_service_selects_pods services replicaSet service pod :
  service ∈ Go.items (getMatchingServices services replicaSet) →
  selects replicaSet pod →
  service.(Service.ObjectMeta).(ObjectMeta.Namespace)
  = pod.(Pod.ObjectMeta).(ObjectMeta.Namespace)
  ∧ isLabelSelectorMatching service.(Service.Spec).(ServiceSpec.Selector)
      pod.(Pod.ObjectMeta).(ObjectMeta.Labels) = true.
Proof.
  rewrite getMatchingServices_items, list_elem_of_filter.
  intros [[Hns Hservice] _] [Hns' Hpod]. split; [congruence|].
  apply isLabelSelectorMatching_true in Hservice as [Hlen Hsr].
  apply isLabelSelectorMatching_true in Hpod as [_ Hrp].
  apply isLabelSelectorMatching_true. split; [done|].
  intros k v Hk. by apply Hrp, Hsr.
Qed.

Lemma matching_service_selects_pods_witness :
  svc1 ∈ Go.items (getMatchingServices (Go.sliceOf [svcY; svc1]) rs2)
  ∧ selects rs2 p1
  ∧ isLabelSelectorMatching svc1.(Service.Spec).(ServiceSpec.Selector)
      p1.(Pod.ObjectMeta).(ObjectMeta.Labels) = true.
Proof.
  assert (Hin : svc1 ∈ Go.items (getMatchingServices (Go.sliceOf [svcY; svc1]) rs2)).
  { assert (Hitems : Go.items (getMatchingServices (Go.sliceOf [svcY; svc1]) rs2)
                     = [svc1]) by (vm_compute; reflexivity).
    rewrite Hitems. apply list_elem_of_here. }
  assert (Hsel : selects rs2 p1) by (apply (bool_decide_unpack _); vm_compute; exact I).
  split; [exact Hin|]. split; [exact Hsel|].
  apply (matching_service_selects_pods (Go.sliceOf [svcY; svc1]) rs2 svc1 p1 Hin Hsel).
Defined.

Lemma filter_filter_same {A} (P : A → Prop) `{∀ x, Decision (P x)} (l : list A) :
  filter P (filter P l) = filter P l.
Proof.
  induction l as [|x l IH]; [done|].
  rewrite filter_cons. destruct (decide (P x)) as [HP|HP]; [|done].
  rewrite filter_cons, decide_True by done. by rewrite IH.
Qed.

(** Matching again what has matched changes nothing: every service of the
    result is kept, and a nil result stays nil. *)
Theorem getMatchingServices_idempotent services replicaSet :
  getMatchingServices (getMatchingServices services replicaSet) replicaSet
  = getMatchingServices services replicaSet.
Proof.
  apply slice_eq.
  - apply eq_true_iff_eq. rewrite !getMatchingServices_isNil.
    rewrite getMatchingServices_items, !Forall_forall.
    setoid_rewrite list_elem_of_filter. split.
    + intros Hnone service Hin Htargets. by apply (Hnone service).
    + intros Hnone service [Htargets Hin]. by apply (Hnone service).
  - rewrite !getMatchingServices_items. apply filter_filter_same.
Qed.

(** ** More on the pod summary *)

(** When the replica set selects none of the pods, the three counters stay
    at zero beside the declared counts. *)
Lemma getReplicaSetPodInfo_none_selected replicaSet (pods : Go.slice Pod.t) :
  Forall (λ pod, ¬ selects replicaSet pod) (Go.items pods) →
  getReplicaSetPodInfo replicaSet pods
  = mkReplicaSetPodInfo
      replicaSet.(ReplicationController.Status).(ReplicationControllerStatus.Replicas)
      replicaSet.(ReplicationController.Spec).(ReplicationControllerSpec.Replicas)
      0 0 0.
Proof.
  intros Hnone. unfold getReplicaSetPodInfo. generalize (mkReplicaSetPodInfo
      replicaSet.(ReplicationController.Status).(ReplicationControllerStatus.Replicas)
      replicaSet.(ReplicationController.Spec).(ReplicationControllerSpec.Replicas)
      0 0 0).
  induction Hnone as [|pod rest Hno _ IH]; intros result; [done|].
  simpl. rewrite podInfoStep_decide, decide_False by done. apply IH.
Qed.

(** A replica set with an empty selector, nil or not, counts no pod,
    whatever the pods and their labels are. *)
Theorem getReplicaSetPodInfo_empty_selector replicaSet (pods : Go.slice Pod.t) :
  Go.len replicaSet.(ReplicationController.Spec).(ReplicationControllerSpec.Selector)
  = 0%nat →
  getReplicaSetPodInfo replicaSet pods
  = mkReplicaSetPodInfo
      replicaSet.(ReplicationController.Status).(ReplicationControllerStatus.Replicas)
      replicaSet.(ReplicationController.Spec).(ReplicationControllerSpec.Replicas)
      0 0 0.
Proof.
  intros Hlen. apply getReplicaSetPodInfo_none_selected.
  apply Forall_forall. intros pod _ [_ Hsel].
  by apply isLabelSelectorMatching_true in Hsel as [Hnz _].
Qed.

Lemma getReplicaSetPodInfo_empty_selector_witness :
  Go.len rsNilSelector.(ReplicationController.Spec).(ReplicationControllerSpec.Selector)
  = 0%nat
  ∧ getReplicaSetPodInfo rsNilSelector (Go.sliceOf [p1; p2; p3; p4])
    = mkReplicaSetPodInfo 2 3 0 0 0.
Proof.
  split; [vm_compute; reflexivity|].
  apply (getReplicaSetPodInfo_empty_selector rsNilSelector (Go.sliceOf [p1; p2; p3; p4])).
  vm_compute; reflexivity.
Defined.

Lemma countInPhase_le_length (phase : PodPhase.t) (pods : list Pod.t) :
  countInPhase phase pods ≤ Z.of_nat (length pods).
Proof. unfold countInPhase. pose proof (length_filter (inPhase phase) pods). lia. Qed.

(** The counters of the scan are never negative and none exceeds the number
    of pods scanned. *)
Theorem getReplicaSetPodInfo_bounds replicaSet (pods : Go.slice Pod.t) :
  Z.of_nat (length (Go.items pods)) ≤ Go.maxInt →
  0 ≤ (getReplicaSetPodInfo replicaSet pods).(Running) ≤ Z.of_nat (length (Go.items pods))
  ∧ 0 ≤ (getReplicaSetPodInfo replicaSet pods).(Waiting)
      ≤ Z.of_nat (length (Go.items pods))
  ∧ 0 ≤ (getReplicaSetPodInfo replicaSet pods).(Failed)
      ≤ Z.of_nat (length (Go.items pods)).
Proof.
  intros Hfit. unfold getReplicaSetPodInfo.
  edestruct (podInfo_loop_counts replicaSet (Go.items pods)) as (HR & HW & HF);
    [| | | | rewrite HR, HW, HF]; simpl; try lia.
  pose proof (length_filter (selects replicaSet) (Go.items pods)) as Hsel.
  pose proof (countInPhase_le_length PodPhase.PodRunning
                (filter (selects replicaSet) (Go.items pods))).
  pose proof (countInPhase_le_length PodPhase.PodPending
                (filter (selects replicaSet) (Go.items pods))).
  pose proof (countInPhase_le_length PodPhase.PodFailed
                (filter (selects replicaSet) (Go.items pods))).
  pose proof (countInPhase_nonneg PodPhase.PodRunning
                (filter (selects replicaSet) (Go.items pods))).
  pose proof (countInPhase_nonneg PodPhase.PodPending
                (filter (selects replicaSet) (Go.items pods))).
  pose proof (countInPhase_nonneg PodPhase.PodFailed
                (filter (selects replicaSet) (Go.items pods))).
  lia.
Qed.

Lemma getReplicaSetPodInfo_bounds_witness :
  Z.of_nat (length (Go.items (Go.sliceOf [p1; p2; p3; p4]))) ≤ Go.maxInt
  ∧ 0 ≤ (getReplicaSetPodInfo rs1 (Go.sliceOf [p1; p2; p3; p4])).(Running)
      ≤ Z.of_nat (length (Go.items (Go.sliceOf [p1; p2; p3; p4]))).
Proof.
  split; [vm_compute; discriminate|].
  apply (getReplicaSetPodInfo_bounds rs1 (Go.sliceOf [p1; p2; p3; p4])).
  vm_compute; discriminate.
Defined.

Lemma countInPhase_app (phase : PodPhase.t) (pods pods' : list Pod.t) :
  countInPhase phase (pods ++ pods')
  = countInPhase phase pods + countInPhase phase pods'.
Proof. unfold countInPhase. rewrite filter_app, length_app. lia. Qed.

(** Scanning a pod list in two parts and adding the counters gives the
    counters of the whole scan. *)
Theorem getReplicaSetPodInfo_app replicaSet (pods pods' : list Pod.t) :
  Z.of_nat (length (pods ++ pods')) ≤ Go.maxInt →
  (getReplicaSetPodInfo replicaSet (Go.sliceOf (pods ++ pods'))).(Running)
  = (getReplicaSetPodInfo replicaSet (Go.sliceOf pods)).(Running)
    + (getReplicaSetPodInfo replicaSet (Go.sliceOf pods')).(Running)
  ∧ (getReplicaSetPodInfo replicaSet (Go.sliceOf (pods ++ pods'))).(Waiting)
    = (getReplicaSetPodInfo replicaSet (Go.sliceOf pods)).(Waiting)
      + (getReplicaSetPodInfo replicaSet (Go.sliceOf pods')).(Waiting)
  ∧ (getReplicaSetPodInfo replicaSet (Go.sliceOf (pods ++ pods'))).(Failed)
    = (getReplicaSetPodInfo replicaSet (Go.sliceOf pods)).(Failed)
      + (getReplicaSetPodInfo replicaSet (Go.sliceOf pods')).(Failed).
Proof.
  rewrite length_app. intros Hfit. unfold getReplicaSetPodInfo. simpl Go.items.
  edestruct (podInfo_loop_counts replicaSet (pods ++ pods')) as (HR & HW & HF);
    [| | | | rewrite HR, HW, HF]; simpl; try (rewrite ?length_app; lia).
  edestruct (podInfo_loop_counts replicaSet pods) as (HR1 & HW1 & HF1);
    [| | | | rewrite HR1, HW1, HF1]; simpl; try lia.
  edestruct (podInfo_loop_counts replicaSet pods') as (HR2 & HW2 & HF2);
    [| | | | rewrite HR2, HW2, HF2]; simpl; try lia.
  rewrite filter_app, !countInPhase_app. lia.
Qed.

Lemma getReplicaSetPodInfo_app_witness :
  Z.of_nat (length ([p1; p2] ++ [p3; p4; p1])) ≤ Go.maxInt
  ∧ (getReplicaSetPodInfo rs1 (Go.sliceOf ([p1; p2] ++ [p3; p4; p1]))).(Running)
    = (getReplicaSetPodInfo rs1 (Go.sliceOf [p1; p2])).(Running)
      + (getReplicaSetPodInfo rs1 (Go.sliceOf [p3; p4; p1])).(Running).
Proof.
  split; [vm_compute; discriminate|].
  apply (getReplicaSetPodInfo_app rs1 [p1; p2] [p3; p4; p1]).
  vm_compute; discriminate.
Defined.

(** ** More on the assembled records *)

Lemma index_lookup (m : Go.strmap) (k : string) :
  Go.index m k = default "" (Go.lookup m k).
Proof. unfold Go.index. rewrite index2_lookup. by destruct (Go.lookup m k). Qed.

Lemma isNil_appendAll_nil {A} (l : list A) :
  Go.isNil (Go.appendAll Go.nilSlice l) = true ↔ l = [].
Proof. by destruct l. Qed.

Lemma bind_nil_iff {A B} (f : A → list B) (l : list A) :
  l ≫= f = [] ↔ Forall (λ x, f x = []) l.
Proof.
  induction l as [|x l IH]; [by split; [constructor|]|].
  rewrite bind_cons, Forall_cons, <- IH. split.
  - by intros [? ?]%app_eq_nil.
  - by intros [-> ->].
Qed.

Lemma Forall_filter_iff {A} (P Q : A → Prop) `{∀ x, Decision (P x)} (l : list A) :
  Forall Q (filter P l) ↔ Forall (λ x, P x → Q x) l.
Proof.
  rewrite !Forall_forall. setoid_rewrite list_elem_of_filter. split.
  - intros HQ x Hin HP. by apply HQ.
  - intros HQ x [HP Hin]. by apply HQ.
Qed.

(** Every step below starts from the records of a well-formed call. *)
Lemma getReplicaSetList_records replicaSets services pods :
  Forall hasTemplate (Go.items replicaSets) →
  ∃ records,
    getReplicaSetList replicaSets services pods
    = Go.Returns (mkReplicaSetList (Go.sliceOf records))
    ∧ Forall2 (describes services pods) (Go.items replicaSets) records.
Proof.
  intros Hwf. destruct (describes_exists services pods _ Hwf) as [records Hall].
  exists records. split; [|done].
  apply getReplicaSetList_returns_iff. by exists records.
Qed.

(** The container images of a record are the images of the containers of
    the pod template, in template order and with repetitions; the list is
    nil exactly when the template has no container. *)
Theorem getReplicaSetList_images replicaSets services pods :
  Forall hasTemplate (Go.items replicaSets) →
  ∃ out,
    getReplicaSetList replicaSets services pods = Go.Returns out
    ∧ Forall2
        (λ replicaSet record,
           ∃ template,
             replicaSet.(ReplicationController.Spec).(ReplicationControllerSpec.Template)
             = Some template
             ∧ Go.items record.(ContainerImages)
               = Container.Image
                 <$> Go.items template.(PodTemplateSpec.Spec).(PodSpec.Containers)
             ∧ (Go.isNil record.(ContainerImages) = true
                ↔ Go.items template.(PodTemplateSpec.Spec).(PodSpec.Containers) = []))
        (Go.items replicaSets) (Go.items out.(ReplicaSets)).
Proof.
  intros Hwf.
  destruct (getReplicaSetList_records _ services pods Hwf) as (records & Hout & Hall).
  eexists. split; [exact Hout|]. simpl.
  eapply Forall2_impl; [exact Hall|]. intros replicaSet record Hdesc.
  destruct (describes_fields _ _ _ _ Hdesc)
    as (_ & _ & _ & _ & _ & _ & (template & Htemplate & ->) & _ & _).
  exists template. split; [done|]. split; [by rewrite items_appendAll|].
  rewrite isNil_appendAll_nil. split; [apply fmap_nil_inv | by intros ->].
Qed.

Lemma getReplicaSetList_images_witness :
  Forall hasTemplate (Go.items (Go.sliceOf [rs2; rsOther]))
  ∧ ∃ out,
      getReplicaSetList (Go.sliceOf [rs2; rsOther]) Go.nilSlice Go.nilSlice
      = Go.Returns out
      ∧ (ContainerImages <$> Go.items out.(ReplicaSets))
        = [Go.sliceOf ["nginx"; "nginx"]; Go.nilSlice].
Proof.
  split; [apply (bool_decide_unpack _); vm_compute; exact I|].
  destruct (getReplicaSetList_images (Go.sliceOf [rs2; rsOther]) Go.nilSlice Go.nilSlice)
    as (out & Hout & _); [apply (bool_decide_unpack _); vm_compute; exact I|].
  exists out. split; [exact Hout|].
  vm_compute in Hout. injection Hout as <-. reflexivity.
Defined.

(** A record carries the name, namespace, labels and creation time of its
    replica set, taken as they are, in the order of the replica sets; its
    description is the value of the description annotation, and the empty
    string when the annotation, or the whole annotation map, is missing. *)
Theorem getReplicaSetList_identity replicaSets services pods :
  Forall hasTemplate (Go.items replicaSets) →
  ∃ out,
    getReplicaSetList replicaSets services pods = Go.Returns out
    ∧ Forall2
        (λ replicaSet record,
           record.(Name)
           = replicaSet.(ReplicationController.ObjectMeta).(ObjectMeta.Name)
           ∧ record.(Namespace)
             = replicaSet.(ReplicationController.ObjectMeta).(ObjectMeta.Namespace)
           ∧ record.(Labels)
             = replicaSet.(ReplicationController.ObjectMeta).(ObjectMeta.Labels)
           ∧ record.(CreationTime)
             = replicaSet.(ReplicationController.ObjectMeta)
                         .(ObjectMeta.CreationTimestamp)
           ∧ record.(Description)
             = default ""
                 (Go.lookup
                    replicaSet.(ReplicationController.ObjectMeta)
                              .(ObjectMeta.Annotations)
                    DescriptionAnnotationKey))
        (Go.items replicaSets) (Go.items out.(ReplicaSets)).
Proof.
  intros Hwf.
  destruct (getReplicaSetList_records _ services pods Hwf) as (records & Hout & Hall).
  eexists. split; [exact Hout|]. simpl.
  eapply Forall2_impl; [exact Hall|]. intros replicaSet record Hdesc.
  destruct (describes_fields _ _ _ _ Hdesc)
    as (-> & -> & -> & -> & -> & _).
  by rewrite index_lookup.
Qed.

Lemma getReplicaSetList_identity_witness :
  Forall hasTemplate (Go.items (Go.sliceOf [rs2; rs1]))
  ∧ ∃ out,
      getReplicaSetList (Go.sliceOf [rs2; rs1]) Go.nilSlice Go.nilSlice
      = Go.Returns out
      ∧ (Name <$> Go.items out.(ReplicaSets)) = ["rs2"; "rs1"]
      ∧ (Description <$> Go.items out.(ReplicaSets)) = [""; ""].
Proof.
  split; [apply (bool_decide_unpack _); vm_compute; exact I|].
  destruct (getReplicaSetList_identity (Go.sliceOf [rs2; rs1]) Go.nilSlice Go.nilSlice)
    as (out & Hout & _); [apply (bool_decide_unpack _); vm_compute; exact I|].
  exists out. split; [exact Hout|].
  vm_compute in Hout. injection Hout as <-. split; reflexivity.
Defined.

(** The internal endpoint list of a record is nil exactly when no service
    targets the replica set, and the external one exactly when no service
    that targets it has a load-balancer ingress. *)
Theorem getReplicaSetList_nil_endpoints replicaSets services pods :
  Forall hasTemplate (Go.items replicaSets) →
  ∃ out,
    getReplicaSetList replicaSets services pods = Go.Returns out
    ∧ Forall2
        (λ replicaSet record,
           (Go.isNil record.(InternalEndpoints) = true
            ↔ Forall (λ service, ¬ targets replicaSet service) (Go.items services))
           ∧ (Go.isNil record.(ExternalEndpoints) = true
              ↔ Forall
                  (λ service,
                     targets replicaSet service →
                     Go.items service.(Service.Status).(ServiceStatus.LoadBalancer)
                                     .(LoadBalancerStatus.Ingress) = [])
                  (Go.items services)))
        (Go.items replicaSets) (Go.items out.(ReplicaSets)).
Proof.
  intros Hwf.
  destruct (getReplicaSetList_records _ services pods Hwf) as (records & Hout & Hall).
  eexists. split; [exact Hout|]. simpl.
  eapply Forall2_impl; [exact Hall|]. intros replicaSet record Hdesc.
  destruct (describes_fields _ _ _ _ Hdesc)
    as (_ & _ & _ & _ & _ & _ & _ & -> & ->).
  rewrite !isNil_appendAll_nil, getMatchingServices_items. split.
  - rewrite <- (Forall_filter_iff (targets replicaSet) (λ _, False)). split.
    + intros Hnil%fmap_nil_inv. rewrite Hnil. constructor.
    + intros Hnone. destruct (filter _ _) as [|service rest]; [done|].
      by apply Forall_cons in Hnone as [[] _].
  - rewrite bind_nil_iff, Forall_filter_iff.
    apply Forall_iff. intros service. unfold externalEndpointsOf.
    split; intros Hnil Htargets; specialize (Hnil Htargets).
    + by apply fmap_nil_inv in Hnil.
    + by rewrite Hnil.
Qed.

Lemma getReplicaSetList_nil_endpoints_witness :
  Forall hasTemplate (Go.items (Go.sliceOf [rs1; rsOther]))
  ∧ ∃ out,
      getReplicaSetList (Go.sliceOf [rs1; rsOther]) (Go.sliceOf [svcY; svc1])
        Go.nilSlice = Go.Returns out
      ∧ (Go.isNil <$> (InternalEndpoints <$> Go.items out.(ReplicaSets)))
        = [false; true].
Proof.
  split; [apply (bool_decide_unpack _); vm_compute; exact I|].
  destruct (getReplicaSetList_nil_endpoints (Go.sliceOf [rs1; rsOther])
              (Go.sliceOf [svcY; svc1]) Go.nilSlice)
    as (out & Hout & _); [apply (bool_decide_unpack _); vm_compute; exact I|].
  exists out. split; [exact Hout|].
  vm_compute in Hout. injection Hout as <-. reflexivity.
Defined.

(** The aggregation panics exactly when some replica set comes without its
    pod template; one such replica set anywhere in the input loses the
    records of all the others. *)
Theorem getReplicaSetList_panics_iff replicaSets services pods :
  getReplicaSetList replicaSets services pods = Go.Panics
  ↔ ¬ Forall hasTemplate (Go.items replicaSets).
Proof.
  split; [|apply getReplicaSetList_panics].
  intros Hpanics Hwf.
  destruct (getReplicaSetList_records _ services pods Hwf) as (records & Hout & _).
  congruence.
Qed.

(** The records of a list of replica sets given in two parts are the
    records of the first part followed by the records of the second. *)
Theorem getReplicaSetList_app (replicaSets replicaSets' : list ReplicationController.t)
    services pods :
  Forall hasTemplate (replicaSets ++ replicaSets') →
  ∃ out out1 out2,
    getReplicaSetList (Go.sliceOf (replicaSets ++ replicaSets')) services pods
    = Go.Returns out
    ∧ getReplicaSetList (Go.sliceOf replicaSets) services pods = Go.Returns out1
    ∧ getReplicaSetList (Go.sliceOf replicaSets') services pods = Go.Returns out2
    ∧ out.(ReplicaSets)
      = Go.sliceOf (Go.items out1.(ReplicaSets) ++ Go.items out2.(ReplicaSets)).
Proof.
  intros [Hwf Hwf']%Forall_app.
  destruct (getReplicaSetList_records (Go.sliceOf replicaSets) services pods Hwf)
    as (records & Hout & Hall).
  destruct (getReplicaSetList_records (Go.sliceOf replicaSets') services pods Hwf')
    as (records' & Hout' & Hall').
  exists (mkReplicaSetList (Go.sliceOf (records ++ records'))),
    (mkReplicaSetList (Go.sliceOf records)), (mkReplicaSetList (Go.sliceOf records')).
  split; [|split; [exact Hout | split; [exact Hout'|reflexivity]]].
  apply getReplicaSetList_returns_iff. exists (records ++ records').
  split; [|done]. by apply Forall2_app.
Qed.

Lemma getReplicaSetList_app_witness :
  Forall hasTemplate ([rs1] ++ [rs2; rsOther])
  ∧ ∃ out out1 out2,
      getReplicaSetList (Go.sliceOf ([rs1] ++ [rs2; rsOther])) (Go.sliceOf [svc1])
        (Go.sliceOf [p1]) = Go.Returns out
      ∧ getReplicaSetList (Go.sliceOf [rs1]) (Go.sliceOf [svc1]) (Go.sliceOf [p1])
        = Go.Returns out1
      ∧ getReplicaSetList (Go.sliceOf [rs2; rsOther]) (Go.sliceOf [svc1])
          (Go.sliceOf [p1]) = Go.Returns out2
      ∧ out.(ReplicaSets)
        = Go.sliceOf (Go.items out1.(ReplicaSets) ++ Go.items out2.(ReplicaSets)).
Proof.
  split; [apply (bool_decide_unpack _); vm_compute; exact I|].
  apply (getReplicaSetList_app [rs1] [rs2; rsOther]).
  apply (bool_decide_unpack _); vm_compute; exact I.
Defined.

(** ** The entry point [GetReplicaSetList] *)

(** The first request that fails, in the order replica sets, services,
    pods, decides the call: its error is returned as it is with a nil list,
    and no request is made after it. *)
Theorem GetReplicaSetList_first_error client (i : nat) (err : error) :
  errorsInOrder client !! i = Some (Some err) →
  (∀ j, (j < i)%nat → errorsInOrder client !! j = Some None) →
  GetReplicaSetList client
  = (Logged "Getting list of all replica sets in the cluster"
       :: take (S i) requestOrder,
     Go.Returns (None, Some err)).
Proof.
  intros Herr Hbefore.
  assert (H0 := Hbefore 0%nat). assert (H1 := Hbefore 1%nat). clear Hbefore.
  open_client client.
  destruct i as [|[|[|i]]]; simpl in *.
  - by injection Herr as ->.
  - injection Herr as ->. specialize (H0 ltac:(lia)). by injection H0 as ->.
  - injection Herr as ->. specialize (H0 ltac:(lia)). specialize (H1 ltac:(lia)).
    injection H0 as ->. by injection H1 as ->.
  - done.
Qed.

Lemma GetReplicaSetList_first_error_witness :
  errorsInOrder servicesDown !! 1%nat = Some (Some refused)
  ∧ GetReplicaSetList servicesDown
    = (Logged "Getting list of all replica sets in the cluster"
         :: take 2 requestOrder,
       Go.Returns (None, Some refused)).
Proof.
  split; [reflexivity|].
  apply (GetReplicaSetList_first_error servicesDown 1 refused); [reflexivity|].
  intros j Hj. assert (j = 0%nat) as -> by lia. reflexivity.
Defined.

(** When the three requests succeed and every listed replica set has its
    pod template, the call makes the three requests, returns no error, and
    its list is the aggregation of the items of the three lists, one record
    for each listed replica set. *)
Theorem GetReplicaSetList_success client :
  errorsInOrder client = [None; None; None] →
  honoursContract client →
  Forall hasTemplate (listedReplicaSets client) →
  ∃ replicaSets services pods out,
    client.(Client.ReplicationControllers) NamespaceAll
      (ListOptions.mk labels.Everything fields.Everything) = (Some replicaSets, None)
    ∧ client.(Client.Services) NamespaceAll
        (ListOptions.mk labels.Everything fields.Everything) = (Some services, None)
    ∧ client.(Client.Pods) NamespaceAll
        (ListOptions.mk labels.Everything fields.Everything) = (Some pods, None)
    ∧ getReplicaSetList replicaSets.(ReplicationControllerList.Items)
        services.(ServiceList.Items) pods.(PodList.Items) = Go.Returns out
    ∧ length (Go.items out.(ReplicaSets))
      = length (Go.items replicaSets.(ReplicationControllerList.Items))
    ∧ GetReplicaSetList client
      = (Logged "Getting list of all replica sets in the cluster" :: requestOrder,
         Go.Returns (Some out, None)).
Proof.
  intros Herrors Hcontract Hwf. open_client client.
  injection Herrors as -> -> ->.
  destruct Hcontract as (HR & HS & HP).
  destruct (HR _ _ eq_refl eq_refl) as [listedSets ->].
  destruct (HS _ _ eq_refl eq_refl) as [listedServices ->].
  destruct (HP _ _ eq_refl eq_refl) as [listedPods ->].
  destruct (getReplicaSetList_records listedSets.(ReplicationControllerList.Items)
              listedServices.(ServiceList.Items) listedPods.(PodList.Items) Hwf)
    as (records & Hout & Hall).
  exists listedSets, listedServices, listedPods,
    (mkReplicaSetList (Go.sliceOf records)).
  repeat split; try done.
  - simpl. symmetry. by eapply Forall2_length.
  - simpl. by rewrite Hout.
Qed.

Lemma GetReplicaSetList_success_witness :
  errorsInOrder healthy = [None; None; None]
  ∧ honoursContract healthy
  ∧ Forall hasTemplate (listedReplicaSets healthy)
  ∧ ∃ out,
      GetReplicaSetList healthy
      = (Logged "Getting list of all replica sets in the cluster" :: requestOrder,
         Go.Returns (Some out, None))
      ∧ length (Go.items out.(ReplicaSets)) = 2%nat.
Proof.
  assert (Hcontract : honoursContract healthy).
  { repeat split; intros listed err [= <- <-] _; by eexists. }
  assert (Hwf : Forall hasTemplate (listedReplicaSets healthy))
    by (apply (bool_decide_unpack _); vm_compute; exact I).
  split; [reflexivity|]. split; [exact Hcontract|]. split; [exact Hwf|].
  destruct (GetReplicaSetList_success healthy eq_refl Hcontract Hwf)
    as (replicaSets & services & pods & out & HR & _ & _ & _ & Hlen & Hcall).
  exists out. split; [exact Hcall|].
  rewrite Hlen. by injection HR as <-.
Defined.

(** A call that returns gives back either a list and no error, or an error
    and no list: never both and never neither. *)
Theorem GetReplicaSetList_result_shape client trace list err :
  GetReplicaSetList client = (trace, Go.Returns (list, err)) →
  (is_Some list ∧ err = None) ∨ (list = None ∧ is_Some err).
Proof.
  open_client client.
  destruct errReplicaSets; [intros [= <- <- <-]; right; by eauto|].
  destruct errServices; [intros [= <- <- <-]; right; by eauto|].
  destruct errPods; [intros [= <- <- <-]; right; by eauto|].
  destruct replicaSets, services, pods; simpl; try done.
  destruct (getReplicaSetList _ _ _); simpl; [|done].
  intros [= <- <- <-]. left. by eauto.
Qed.

Lemma GetReplicaSetList_result_shape_witness :
  GetReplicaSetList servicesDown
  = (Logged "Getting list of all replica sets in the cluster" :: take 2 requestOrder,
     Go.Returns (None, Some refused))
  ∧ ((is_Some (None : option ReplicaSetList) ∧ Some refused = None)
     ∨ ((None : option ReplicaSetList) = None ∧ is_Some (Some refused))).
Proof.
  split; [reflexivity|].
  apply (GetReplicaSetList_result_shape servicesDown
           (Logged "Getting list of all replica sets in the cluster"
              :: take 2 requestOrder)).
  reflexivity.
Defined.

(** What a call does: it writes its log line, then makes between one and
    three list requests, in the order replica sets, services, pods, each for
    all namespaces and without any label or field filter, and none twice;
    it stops before the third request only to return an error. *)
Theorem GetReplicaSetList_requests client :
  ∃ n : nat,
    (1 ≤ n ≤ 3)%nat
    ∧ fst (GetReplicaSetList client)
      = Logged "Getting list of all replica sets in the cluster"
          :: take n requestOrder
    ∧ Forall listsEverything (fst (GetReplicaSetList client))
    ∧ NoDup (fst (GetReplicaSetList client))
    ∧ ((n < 3)%nat →
       ∃ err, snd (GetReplicaSetList client) = Go.Returns (None, Some err)).
Proof.
  open_client client.
  destruct errReplicaSets as [e|]; [|destruct errServices as [e|]]; simpl.
  - exists 1%nat. simpl. split; [lia|]. split; [done|].
    split; [by repeat constructor|]. split; [distinct_events | by eauto].
  - exists 2%nat. simpl. split; [lia|]. split; [done|].
    split; [by repeat constructor|]. split; [distinct_events | by eauto].
  - exists 3%nat. split; [lia|].
    destruct errPods; simpl; (split; [done|]);
      (split; [by repeat constructor|]); (split; [distinct_events | lia]).
Qed.

(** A call panics in exactly two situations, both after its three requests
    went through without an error: the client hands out no list object with
    one of its answers, or a listed replica set has no pod template. *)
Theorem GetReplicaSetList_panics_iff client :
  snd (GetReplicaSetList client) = Go.Panics
  ↔ errorsInOrder client = [None; None; None]
    ∧ ¬ (honoursContract client ∧ Forall hasTemplate (listedReplicaSets client)).
Proof.
  open_client client.
  destruct errReplicaSets; [split; [done | by intros [[=] _]]|].
  destruct errServices; [split; [done | by intros [[=] _]]|].
  destruct errPods; [split; [done | by intros [[=] _]]|].
  simpl. split.
  - intros Hpanics. split; [done|]. intros [(HR & HS & HP) Hwf].
    destruct (HR _ _ eq_refl eq_refl) as [listedSets ->].
    destruct (HS _ _ eq_refl eq_refl) as [listedServices ->].
    destruct (HP _ _ eq_refl eq_refl) as [listedPods ->].
    simpl in Hpanics.
    destruct (getReplicaSetList_records listedSets.(ReplicationControllerList.Items)
                listedServices.(ServiceList.Items) listedPods.(PodList.Items) Hwf)
      as (records & Hout & _).
    by rewrite Hout in Hpanics.
  - intros [_ Hnot].
    destruct replicaSets as [listedSets|]; [|done].
    destruct services as [listedServices|]; [|done].
    destruct pods as [listedPods|]; [|done]. simpl.
    rewrite getReplicaSetList_panics; [done|].
    intros Hwf. apply Hnot. split; [|done].
    repeat split; intros listed err [= <- <-] _; by eexists.
Qed.
